(** * ix.commands.registry: the command registry

    A shallow embedding of [src/ix/commands/registry.py] and the proofs of
    its specification.

    - Python [str] is [string] (a byte sequence; on UTF-8 text the bytewise
      lexicographic order is the code-point order Python compares by).
    - The [commands] dict is an association list in insertion order, with
      CPython's behaviour written out: assignment to a present key replaces
      the value in place, assignment to an absent key appends, [del] removes
      the entry, iteration follows insertion order and checks the size on
      every step.
    - Registry methods are computations in a state-and-exception monad whose
      state survives a failure (Python does not undo anything on [raise]).
    - [importlib] is outside the source: the loader is a parameter.  Calls to
      it, calls to a unit's [register] entry point and calls to a command's
      [method] are recorded in a trace, so that what was (not) invoked can be
      stated. *)

From Stdlib Require Import String Ascii List Bool Arith ZArith Lia.
From Stdlib Require Import Permutation Sorted.
From Stdlib Require Import DecimalString OrderedTypeEx.
Import ListNotations.
Local Open Scope string_scope.
Local Open Scope list_scope.

Set Implicit Arguments.

(** ** Python values and exceptions *)

Inductive PyVal : Type :=
| VNone
| VBool (b : bool)
| VInt (n : Z)
| VStr (s : string).

(** The exception classes that this module raises or lets through. *)
Inductive exn : Type :=
| KeyError (arg : string)
| RuntimeError (msg : string)
| AttributeError (msg : string)
| ImportError (msg : string)
| TypeError (msg : string)
| OtherError (cls msg : string).

Inductive Exc (A : Type) : Type :=
| Ok (a : A)
| Raise (e : exn).
Arguments Ok {A} a.
Arguments Raise {A} e.

(** ** Annotations, parameters and callables

    [get_function_signature] looks at an annotation object through two
    observations only: [hasattr(ann, '__name__')] / [ann.__name__] and
    [str(ann)]. *)

Record PyObj : Type := mkPyObj {
  obj_name : option string;   (* [__name__], when the object has one *)
  obj_str : string            (* [str(obj)] *)
}.

(** [inspect.Parameter.empty], the annotation of an untyped parameter, is
    the class [inspect._empty]: it has a [__name__]. *)
Definition Parameter_empty : PyObj :=
  mkPyObj (Some "_empty") "<class 'inspect._empty'>".

Definition py_class (nm : string) : PyObj :=
  mkPyObj (Some nm) ("<class '" ++ nm ++ "'>").

Record Param : Type := mkParam {
  param_name : string;
  param_annotation : PyObj
}.

Definition kwargs := list (string * PyVal).

(** A callable: what [inspect.signature] reports about it, and what calling
    it with keyword arguments yields. *)
Record Method : Type := mkMethod {
  parameters : list Param;
  return_annotation : PyObj;
  run : kwargs -> Exc PyVal
}.

(** ** [get_function_signature] *)

Definition render_parameter (param : Param) : string :=
  param_name param ++ ": " ++
  match obj_name (param_annotation param) with
  | Some nm => nm
  | None => obj_str (param_annotation param)
  end.

(** [sep.join(items)] *)
Fixpoint join (sep : string) (items : list string) : string :=
  match items with
  | [] => ""
  | [x] => x
  | x :: rest => x ++ sep ++ join sep rest
  end.

Definition get_function_signature (func : Method) : string :=
  join ", " (map render_parameter (parameters func)).

(** ** [Command] *)

(** The module this file is imported as; it is the [__module__] of the class
    [Command] defined here. *)
Definition REGISTRY_MODULE : string := "ix.commands.registry".

Record Command : Type := mkCommand {
  class_module : string;   (* [type(self).__module__], read by [cmd.__module__] *)
  name : string;
  description : string;
  method : Method;
  signature : string
}.

(** Truthiness of the optional [signature] argument: [None] and [""] are
    falsy. *)
Definition truthy_str (s : option string) : option string :=
  match s with
  | Some "" => None
  | other => other
  end.

(** [Command.__init__], run on an instance whose class lives in module
    [cls_module]. *)
Definition Command_init (cls_module : string) (name description : string)
    (method : Method) (signature : option string) : Command :=
  mkCommand cls_module name description method
    (match truthy_str signature with
     | Some s => s
     | None => get_function_signature method
     end).

(** [Command(name, description, method, signature)] *)
Definition Command_new := Command_init REGISTRY_MODULE.

(** [Command.__str__] *)
Definition Command_str (self : Command) : string :=
  name self ++ "(" ++ signature self ++ ")".

(** ** The dict *)

Definition dict (V : Type) := list (string * V).

Fixpoint dict_get {V} (k : string) (d : dict V) : option V :=
  match d with
  | [] => None
  | (k', v) :: rest => if String.eqb k k' then Some v else dict_get k rest
  end.

Definition dict_contains {V} (k : string) (d : dict V) : bool :=
  match dict_get k d with Some _ => true | None => false end.

(** [d[k] = v] *)
Fixpoint dict_set {V} (k : string) (v : V) (d : dict V) : dict V :=
  match d with
  | [] => [(k, v)]
  | (k', v') :: rest =>
      if String.eqb k k' then (k, v) :: rest else (k', v') :: dict_set k v rest
  end.

(** [del d[k]] on a present key *)
Fixpoint dict_del {V} (k : string) (d : dict V) : dict V :=
  match d with
  | [] => []
  | (k', v') :: rest =>
      if String.eqb k k' then rest else (k', v') :: dict_del k rest
  end.

Definition dict_keys {V} (d : dict V) : list string := map fst d.
Definition dict_values {V} (d : dict V) : list V := map snd d.

(** A dict holds each key once. *)
Definition dict_wf {V} (d : dict V) : Prop := NoDup (dict_keys d).

(** ** Units and the loader *)

(** What [import_commands] can observe of a member of a unit. *)
Inductive ClassKind : Type :=
| NotAClass
| CommandClass                              (* the class [Command] itself *)
| CommandSubclass (instantiate : Exc Command) (* [attr()] *)
| OtherClass.

Record Attr : Type := mkAttr {
  ix_command : option PyVal;       (* [getattr(attr, "ix_command")], if any *)
  command_attr : option Command;   (* [attr.command], if any *)
  class_kind : ClassKind;
  attr_call : option (kwargs -> Exc PyVal)
}.

(** A unit (module): its namespace, and the effect of its [register]
    entry point when it has one.  An entry point re-registers commands
    through [registry.register], in the order listed. *)
Record Unit : Type := mkUnit {
  unit_name : string;
  members : dict Attr;
  register_entry : option (list Command)
}.

Record Loader : Type := mkLoader {
  import_module : string -> Exc Unit;   (* [importlib.import_module] *)
  reload : Unit -> Exc Unit            (* [importlib.reload] *)
}.

(** ** State, trace and monad *)

Inductive Event : Type :=
| EvResolve (module_name : string)
| EvReload (module_name : string)
| EvEntry (module_name : string)
| EvInvoke (command : string) (args : kwargs).

Record State : Type := mkState {
  commands : dict Command;
  trace : list Event
}.

Definition M (A : Type) : Type := State -> Exc A * State.

Definition ret {A} (a : A) : M A := fun st => (Ok a, st).

Definition bind {A B} (m : M A) (f : A -> M B) : M B :=
  fun st =>
    match m st with
    | (Ok a, st') => f a st'
    | (Raise e, st') => (Raise e, st')
    end.

Definition raise {A} (e : exn) : M A := fun st => (Raise e, st).

Definition lift {A} (r : Exc A) : M A := fun st => (r, st).

Definition get_commands : M (dict Command) := fun st => (Ok (commands st), st).

Definition put_commands (d : dict Command) : M unit :=
  fun st => (Ok tt, mkState d (trace st)).

Definition emit (ev : Event) : M unit :=
  fun st => (Ok tt, mkState (commands st) (trace st ++ [ev])).

Declare Scope py_scope.
Delimit Scope py_scope with py.
Notation "x <- c1 ;; c2" := (bind c1 (fun x => c2))
  (at level 61, c1 at next level, right associativity) : py_scope.
Notation "c1 ;; c2" := (bind c1 (fun _ => c2))
  (at level 61, right associativity) : py_scope.
Local Open Scope py_scope.

(** [for x in xs: body x] over an immutable sequence *)
Fixpoint for_each {A} (xs : list A) (body : A -> M unit) : M unit :=
  match xs with
  | [] => ret tt
  | x :: rest => body x ;; for_each rest body
  end.

(** ** Sorting and numbering

    [list.sort(key=...)] and [dir] order strings with [<]; the sort is
    stable.  Insertion from the right, placing an item before the first one
    that is not smaller, is the stable ascending sort. *)

Fixpoint insert_by {A} (key : A -> string) (x : A) (l : list A) : list A :=
  match l with
  | [] => [x]
  | y :: rest =>
      if String.ltb (key y) (key x) then y :: insert_by key x rest
      else x :: y :: rest
  end.

Definition sort_by {A} (key : A -> string) (l : list A) : list A :=
  fold_right (insert_by key) [] l.

(** [enumerate(l)] *)
Definition enumerate {A} (l : list A) : list (nat * A) :=
  combine (seq 0 (List.length l)) l.

(** [str(n)] for a non-negative integer *)
Definition str_of_nat (n : nat) : string :=
  NilEmpty.string_of_uint (Nat.to_uint n).

Definition newline : string := String (ascii_of_nat 10) "".

Definition prompt_line (entry : nat * Command) : string :=
  str_of_nat (fst entry + 1) ++ ". " ++ Command_str (snd entry).

(** ** [CommandRegistry] *)

(** [CommandRegistry.__init__] *)
Definition CommandRegistry_init : M unit := put_commands [].

(** [self.commands[key]] *)
Definition commands_getitem (key : string) : M Command :=
  d <- get_commands ;;
  match dict_get key d with
  | Some cmd => ret cmd
  | None => raise (KeyError key)
  end.

Definition not_found (command_name : string) : exn :=
  KeyError ("Command '" ++ command_name ++ "' not found in registry.").

Definition register (cmd : Command) : M unit :=
  d <- get_commands ;;
  put_commands (dict_set (name cmd) cmd d).

Definition unregister (command_name : string) : M unit :=
  d <- get_commands ;;
  if dict_contains command_name d
  then put_commands (dict_del command_name d)
  else raise (not_found command_name).

Definition get (name : string) : M Command := commands_getitem name.

(** A method called with positional arguments and unpacked keywords binds
    its own named parameters first: a keyword that bears the name of one of
    them is rejected with a [TypeError] before the body runs.  The first
    such keyword, in the order of the call, is the one reported. *)
Definition colliding_keyword (params : list string) (kw : kwargs)
    : option string :=
  option_map fst
    (find (fun item => existsb (String.eqb (fst item)) params) kw).

Definition multiple_values (func param : string) : exn :=
  TypeError (func ++ "() got multiple values for argument '" ++ param ++ "'").

Definition bind_keywords (func : string) (params : list string)
    (kw : kwargs) : M unit :=
  match colliding_keyword params kw with
  | Some param => raise (multiple_values func param)
  | None => ret tt
  end.

(** [Command.__call__], with parameters [self, *args, **kwargs], called with
    the keywords [kw] unpacked. *)
Definition Command_call (self : Command) (kw : kwargs) : M PyVal :=
  bind_keywords "Command.__call__" ["self"] kw ;;
  emit (EvInvoke (name self) kw) ;;
  lift (run (method self) kw).

(** The named parameters of [call]: [self, command_name, **kwargs]. *)
Definition call_parameters : list string := ["self"; "command_name"].

Definition call (command_name : string) (kw : kwargs) : M PyVal :=
  bind_keywords "CommandRegistry.call" call_parameters kw ;;
  d <- get_commands ;;
  if negb (dict_contains command_name d)
  then raise (not_found command_name)
  else
    command <- commands_getitem command_name ;;
    Command_call command kw.

Definition command_prompt : M string :=
  d <- get_commands ;;
  let commands := sort_by name (dict_values d) in
  ret (join newline (map prompt_line (enumerate commands))).

Definition size_changed : exn :=
  RuntimeError "dictionary changed size during iteration".

(** [for key in d: body key], as CPython's key iterator runs it: the
    iterator remembers the size at creation ([di_used]), a position and the
    number of keys still owed ([len]), and checks the size before every
    step, the one that ends the loop included. *)
Fixpoint dict_iter (di_used di_pos len : nat) (body : string -> M unit)
    : M unit :=
  fun st =>
    if negb (Nat.eqb (List.length (commands st)) di_used)
    then (Raise size_changed, st)
    else
      match nth_error (dict_keys (commands st)) di_pos with
      | None => (Ok tt, st)
      | Some key =>
          match len with
          | 0 =>
              (Raise (RuntimeError "dictionary keys changed during iteration"),
               st)
          | S len' =>
              (body key ;; dict_iter di_used (S di_pos) len' body) st
          end
      end.

Section WithLoader.

Variable loader : Loader.

(** [importlib.import_module(module_name)] *)
Definition importlib_import_module (module_name : string) : M Unit :=
  emit (EvResolve module_name) ;;
  lift (import_module loader module_name).

Definition _import_module := importlib_import_module.

Definition _reload_module (module : Unit) : M Unit :=
  emit (EvReload (unit_name module)) ;;
  lift (reload loader module).

(** [reloaded_module.register(self)] *)
Definition call_register_entry (module : Unit) (cmds : list Command)
    : M unit :=
  emit (EvEntry (unit_name module)) ;;
  for_each cmds register.

(** The body of the loop of [reload_commands]. *)
Definition reload_one (cmd_name : string) : M unit :=
  cmd <- commands_getitem cmd_name ;;
  module <- _import_module (class_module cmd) ;;
  reloaded_module <- _reload_module module ;;
  match register_entry reloaded_module with
  | Some cmds => call_register_entry reloaded_module cmds
  | None => ret tt
  end.

Definition reload_commands : M unit :=
  d <- get_commands ;;
  dict_iter (List.length d) 0 (List.length d) reload_one.

(** [dir(module)]: the names of the namespace, sorted. *)
Definition dir (module : Unit) : list string :=
  sort_by (fun s => s) (dict_keys (members module)).

Definition getattr_module (module : Unit) (attr_name : string) : M Attr :=
  match dict_get attr_name (members module) with
  | Some attr => ret attr
  | None => raise (AttributeError attr_name)
  end.

(** The body of the loop of [import_commands], after [getattr]. *)
Definition import_member (attr : Attr) : M unit :=
  match ix_command attr with
  | Some (VBool true) =>
      match command_attr attr with
      | Some cmd => register cmd
      | None => raise (AttributeError "command")
      end
  | _ =>
      match class_kind attr with
      | CommandSubclass instantiate =>
          cmd_instance <- lift instantiate ;;
          register cmd_instance
      | _ => ret tt
      end
  end.

Definition import_commands (module_name : string) : M unit :=
  module <- importlib_import_module module_name ;;
  for_each (dir module)
    (fun attr_name =>
       attr <- getattr_module module attr_name ;;
       import_member attr).

(** [tools or []] *)
Definition or_empty {A} (tools : option (list A)) : list A :=
  match tools with
  | Some l => l
  | None => []
  end.

(** [for_tools] builds a registry of its own: [cls()] makes the state's
    mapping the empty one, and the state on return (or on failure) is the
    new registry's. *)
Definition for_tools (tools : option (list string)) : M unit :=
  CommandRegistry_init ;;
  for_each (or_empty tools) import_commands.

End WithLoader.

(** The [command] decorator applied to [func]: the wrapper it returns. *)
Definition command (name description : string) (signature : option string)
    (func : Method) : Attr :=
  let cmd := Command_new name description func signature in
  mkAttr (Some (VBool true)) (Some cmd) NotAClass (Some (run func)).

(** ** Predicates on registries *)

(** Every key is the [name] of its value. *)
Definition registry_inv (d : dict Command) : Prop :=
  Forall (fun entry => fst entry = name (snd entry)) d.

(** The "not found" errors are the [KeyError]s. *)
Definition is_NotFound (e : exn) : bool :=
  match e with
  | KeyError _ => true
  | _ => false
  end.

(** ** What a unit offers

    The commands [import_commands] finds in a unit, as a pure reading of its
    namespace. *)

(** A member carrying the marker set to [True] offers its attached command;
    a subclass of [Command] offers an instance; anything else offers
    nothing.  A marked member without an attached command, or a subclass
    that cannot be instantiated, is a failure. *)
Definition discover_member (attr : Attr) : Exc (option Command) :=
  match ix_command attr with
  | Some (VBool true) =>
      match command_attr attr with
      | Some cmd => Ok (Some cmd)
      | None => Raise (AttributeError "command")
      end
  | _ =>
      match class_kind attr with
      | CommandSubclass (Ok cmd) => Ok (Some cmd)
      | CommandSubclass (Raise e) => Raise e
      | _ => Ok None
      end
  end.

(** The commands found up to the first failing member, and that failure. *)
Fixpoint discover (attrs : list Attr) : list Command * option exn :=
  match attrs with
  | [] => ([], None)
  | attr :: rest =>
      match discover_member attr with
      | Raise e => ([], Some e)
      | Ok None => discover rest
      | Ok (Some cmd) => (cmd :: fst (discover rest), snd (discover rest))
      end
  end.

Definition attrs_of (module : Unit) (names : list string) : list Attr :=
  flat_map
    (fun nm =>
       match dict_get nm (members module) with
       | Some attr => [attr]
       | None => []
       end)
    names.

Definition discoverable (module : Unit) : list Command * option exn :=
  discover (attrs_of module (dir module)).

(** The same for a unit name: a unit that does not resolve offers nothing
    and fails. *)
Definition import_outcome (loader : Loader) (module_name : string)
    : list Command * option exn :=
  match import_module loader module_name with
  | Ok module => discoverable module
  | Raise e => ([], Some e)
  end.

(** Registering a sequence of commands, first to last. *)
Definition register_all (cmds : list Command) (d : dict Command)
    : dict Command :=
  fold_left (fun acc cmd => dict_set (name cmd) cmd acc) cmds d.

(** The last command of a sequence that bears a given name. *)
Definition last_named (nm : string) (cmds : list Command) : option Command :=
  find (fun cmd => String.eqb nm (name cmd)) (rev cmds).

Definition result_of (failure : option exn) : Exc unit :=
  match failure with
  | None => Ok tt
  | Some e => Raise e
  end.

(** A computation keeps a property of the mapping, whether it returns or
    raises. *)
Definition preserves {A} (P : dict Command -> Prop) (m : M A) : Prop :=
  forall st, P (commands st) -> P (commands (snd (m st))).

(** Ascending order of the sort keys. *)
Definition key_le {A} (key : A -> string) (x y : A) : Prop :=
  String.leb (key x) (key y) = true.

(** ** Concrete scenarios *)

Definition int : PyObj := py_class "int".

(** [def f(x: int, y): return x], called with keyword arguments: a keyword
    other than [x] and [y] is rejected, then a missing one. *)
Definition f_xy : Method :=
  mkMethod [mkParam "x" int; mkParam "y" Parameter_empty] Parameter_empty
    (fun kw =>
       match
         find (fun item =>
                 negb (String.eqb (fst item) "x" || String.eqb (fst item) "y"))
              kw
       with
       | Some (k, _) =>
           Raise (TypeError
                    ("f() got an unexpected keyword argument '" ++ k ++ "'"))
       | None =>
           match dict_get "x" kw, dict_get "y" kw with
           | Some vx, Some _ => Ok vx
           | Some _, None =>
               Raise (TypeError
                        "f() missing 1 required positional argument: 'y'")
           | None, Some _ =>
               Raise (TypeError
                        "f() missing 1 required positional argument: 'x'")
           | None, None =>
               Raise (TypeError
                        "f() missing 2 required positional arguments: 'x' and 'y'")
           end
       end).

(** [def echo(command_name): return command_name] *)
Definition echo : Method :=
  mkMethod [mkParam "command_name" Parameter_empty] Parameter_empty
    (fun kw =>
       match
         find (fun item => negb (String.eqb (fst item) "command_name")) kw
       with
       | Some (k, _) =>
           Raise (TypeError
                    ("echo() got an unexpected keyword argument '" ++ k ++ "'"))
       | None =>
           match dict_get "command_name" kw with
           | Some v => Ok v
           | None =>
               Raise (TypeError
                        "echo() missing 1 required positional argument: 'command_name'")
           end
       end).

Definition cmd_echo : Command := Command_new "echo" "repeats" echo None.

Definition empty_state : State := mkState [] [].

Definition cmd_add : Command := Command_new "add" "adds numbers" f_xy None.
Definition cmd_add' : Command :=
  Command_new "add" "adds numbers, again" f_xy (Some "x: int, y: int").
Definition cmd_sub : Command := Command_new "sub" "subtracts" f_xy None.

Definition state_add : State := mkState [("add", cmd_add)] [].

(** Two units that both offer "add", and a loader that knows only them. *)
Definition plain_member : Attr := mkAttr None None NotAClass None.

Definition unitA : Unit :=
  mkUnit "unitA"
    [("sub", command "sub" "subtracts" None f_xy);
     ("add", command "add" "adds numbers" None f_xy);
     ("helper", plain_member)]
    None.

Definition unitB : Unit :=
  mkUnit "unitB"
    [("add", command "add" "adds numbers, again" (Some "x: int, y: int") f_xy)]
    None.

Definition tools_loader : Loader :=
  mkLoader
    (fun nm =>
       if String.eqb nm "unitA" then Ok unitA
       else if String.eqb nm "unitB" then Ok unitB
       else Raise (ImportError nm))
    (fun module => Ok module).

(** A plugin with a decorated function and a [register] entry point, this
    module itself as a unit, and a plugin with a subclass of [Command] whose
    entry point registers one command more than the registry holds. *)
Definition math_unit : Unit :=
  mkUnit "plugins.math"
    [("add", command "add" "adds numbers" None f_xy);
     ("register", plain_member)]
    (Some [cmd_add']).

Definition registry_unit : Unit :=
  mkUnit REGISTRY_MODULE
    [("Command", mkAttr None None CommandClass None);
     ("CommandRegistry", mkAttr None None OtherClass None);
     ("command", plain_member);
     ("get_function_signature", plain_member)]
    None.

Definition cmd_mul : Command :=
  Command_init "plugins.grow" "mul" "multiplies" f_xy None.
Definition cmd_div : Command :=
  Command_init "plugins.grow" "div" "divides" f_xy None.

Definition grow_unit : Unit :=
  mkUnit "plugins.grow"
    [("Mul", mkAttr None None (CommandSubclass (Ok cmd_mul)) None);
     ("register", plain_member)]
    (Some [cmd_mul; cmd_div]).

Definition plugin_loader : Loader :=
  mkLoader
    (fun nm =>
       if String.eqb nm "plugins.math" then Ok math_unit
       else if String.eqb nm REGISTRY_MODULE then Ok registry_unit
       else if String.eqb nm "plugins.grow" then Ok grow_unit
       else Raise (ImportError nm))
    (fun module => Ok module).

Definition grow_state : State := mkState [("mul", cmd_mul)] [].

(** ** Further notions used by the properties beyond the specification *)

(** What reloading on behalf of one command asks of the loader. *)
Definition reload_events (loader : Loader) (cmd : Command) : list Event :=
  EvResolve (class_module cmd) ::
  match import_module loader (class_module cmd) with
  | Ok module => [EvReload (unit_name module)]
  | Raise _ => []
  end.

(** A member that [import_commands] passes over. *)
Definition not_a_command (attr : Attr) : Prop :=
  ix_command attr <> Some (VBool true) /\
  forall instantiate, class_kind attr <> CommandSubclass instantiate.

(** A loader that resolves and reloads every unit to the same, entry-less
    unit. *)
Definition quiet_loader : Loader :=
  mkLoader (fun _ => Ok registry_unit) (fun module => Ok module).

Definition state_two : State :=
  mkState [("sub", cmd_sub); ("add", cmd_add)] [].

(** A unit that imports the class [Command] and carries a member whose
    marker is the integer 1, not [True]. *)
Definition inert_unit : Unit :=
  mkUnit "plugins.inert"
    [("Command", mkAttr None None CommandClass None);
     ("almost", mkAttr (Some (VInt 1%Z)) (Some cmd_add) NotAClass None);
     ("helper", plain_member)]
    None.

Definition inert_loader : Loader :=
  mkLoader
    (fun nm =>
       if String.eqb nm "plugins.inert" then Ok inert_unit
       else Raise (ImportError nm))
    (fun module => Ok module).

(** Commands whose class is defined in "plugins.math". *)
Definition cmd_add_sub : Command :=
  Command_init "plugins.math" "add" "adds numbers" f_xy None.

Definition state_add_sub : State := mkState [("add", cmd_add_sub)] [].

(** Commands whose class lives in "plugins.math" or in this module. *)
Definition known_class (cmd : Command) : Prop :=
  class_module cmd = "plugins.math" \/ class_module cmd = REGISTRY_MODULE.

Definition state_two_swapped : State :=
  mkState [("add", cmd_add); ("sub", cmd_sub)] [].

(** A unit that defines "add" twice, under the attribute names "first" and
    "second", the later definition coming first in the namespace. *)
Definition twice_unit : Unit :=
  mkUnit "plugins.twice"
    [("second", command "add" "adds numbers, again" (Some "x: int, y: int") f_xy);
     ("first", command "add" "adds numbers" None f_xy)]
    None.

Definition twice_loader : Loader :=
  mkLoader (fun _ => Ok twice_unit) (fun module => Ok module).

(** * Proofs *)

(** ** The dict *)

Section DictFacts.

Context {V : Type}.
Implicit Types (d : dict V) (k : string) (v : V).

Lemma dict_get_set_same k v d : dict_get k (dict_set k v d) = Some v.
Proof.
  induction d as [|[k' v'] d IH]; simpl.
  - now rewrite String.eqb_refl.
  - destruct (String.eqb k k') eqn:E; simpl.
    + now rewrite String.eqb_refl.
    + now rewrite E.
Qed.

Lemma dict_get_set_other k k' v d :
  k <> k' -> dict_get k' (dict_set k v d) = dict_get k' d.
Proof.
  intros Hne. induction d as [|[k0 v0] d IH]; simpl.
  - apply not_eq_sym, String.eqb_neq in Hne. now rewrite Hne.
  - destruct (String.eqb k k0) eqn:E; simpl.
    + apply String.eqb_eq in E. subst k0.
      apply not_eq_sym, String.eqb_neq in Hne. now rewrite Hne.
    + now rewrite IH.
Qed.

Lemma dict_set_set k v1 v2 d :
  dict_set k v2 (dict_set k v1 d) = dict_set k v2 d.
Proof.
  induction d as [|[k' v'] d IH]; simpl.
  - now rewrite String.eqb_refl.
  - destruct (String.eqb k k') eqn:E; simpl.
    + now rewrite String.eqb_refl.
    + now rewrite E, IH.
Qed.

Lemma dict_get_None k d : dict_get k d = None <-> ~ In k (dict_keys d).
Proof.
  induction d as [|[k' v'] d IH]; simpl.
  - tauto.
  - destruct (String.eqb k k') eqn:E.
    + apply String.eqb_eq in E. subst. split; [discriminate | tauto].
    + apply String.eqb_neq in E. rewrite IH. intuition congruence.
Qed.

Lemma dict_get_In k v d : dict_get k d = Some v -> In (k, v) d.
Proof.
  induction d as [|[k' v'] d IH]; simpl; [discriminate|].
  destruct (String.eqb k k') eqn:E.
  - apply String.eqb_eq in E. intros [= ->]. subst. now left.
  - intros H. right. now apply IH.
Qed.

(** Assigning to a present key keeps the key sequence; assigning to an
    absent key appends. *)
Lemma dict_set_present k v d :
  dict_contains k d = true -> dict_keys (dict_set k v d) = dict_keys d.
Proof.
  unfold dict_contains.
  induction d as [|[k' v'] d IH]; simpl; [discriminate|].
  destruct (String.eqb k k') eqn:E; simpl.
  - apply String.eqb_eq in E. now subst.
  - intros H. now rewrite IH.
Qed.

Lemma dict_set_absent k v d :
  dict_contains k d = false -> dict_set k v d = d ++ [(k, v)].
Proof.
  unfold dict_contains.
  induction d as [|[k' v'] d IH]; simpl; [reflexivity|].
  destruct (String.eqb k k') eqn:E; [discriminate|].
  intros H. now rewrite IH.
Qed.

Lemma dict_set_length k v d :
  List.length (dict_set k v d) =
  if dict_contains k d then List.length d else S (List.length d).
Proof.
  destruct (dict_contains k d) eqn:E.
  - pose proof (dict_set_present k v d E) as H.
    apply (f_equal (@List.length _)) in H.
    unfold dict_keys in H. now rewrite !length_map in H.
  - rewrite dict_set_absent by assumption. rewrite length_app. simpl. lia.
Qed.

Lemma dict_set_wf k v d : dict_wf d -> dict_wf (dict_set k v d).
Proof.
  unfold dict_wf. intros Hwf.
  destruct (dict_contains k d) eqn:E.
  - now rewrite dict_set_present.
  - rewrite dict_set_absent by assumption.
    unfold dict_keys. rewrite map_app. simpl.
    apply NoDup_app_remove_l with (l := []). simpl.
    apply Permutation_NoDup with (l := k :: map fst d).
    + apply Permutation_cons_append.
    + constructor; [|assumption].
      apply dict_get_None. unfold dict_contains in E.
      now destruct (dict_get k d).
Qed.

Lemma dict_set_count k v d :
  dict_wf d -> count_occ string_dec (dict_keys (dict_set k v d)) k = 1.
Proof.
  intros Hwf. apply (dict_set_wf k v) in Hwf.
  assert (Hin : In k (dict_keys (dict_set k v d))).
  { destruct (In_dec string_dec k (dict_keys (dict_set k v d))) as [H|H];
      [assumption|].
    apply dict_get_None in H. rewrite dict_get_set_same in H. discriminate. }
  apply NoDup_count_occ' with (decA := string_dec) in Hin; assumption.
Qed.

Lemma dict_del_filter k d :
  dict_wf d ->
  dict_del k d = filter (fun e => negb (String.eqb k (fst e))) d.
Proof.
  unfold dict_wf.
  induction d as [|[k' v'] d IH]; simpl; [reflexivity|].
  intros Hwf. inversion Hwf as [|? ? Hnotin Hwf']; subst.
  destruct (String.eqb k k') eqn:E; simpl.
  - apply String.eqb_eq in E. subst k'.
    symmetry. apply forallb_filter_id. apply forallb_forall.
    intros [k0 v0] Hin. simpl.
    apply negb_true_iff, String.eqb_neq. intros ->.
    apply Hnotin. now apply (in_map fst) in Hin.
  - now rewrite IH.
Qed.

Lemma dict_get_filter_other k k' d :
  k <> k' ->
  dict_get k' (filter (fun e => negb (String.eqb k (fst e))) d) = dict_get k' d.
Proof.
  intros Hne. induction d as [|[k0 v0] d IH]; simpl; [reflexivity|].
  destruct (String.eqb k k0) eqn:E; simpl.
  - apply String.eqb_eq in E. subst k0.
    apply not_eq_sym, String.eqb_neq in Hne. now rewrite Hne.
  - now rewrite IH.
Qed.

Lemma dict_get_filter_same k d :
  dict_get k (filter (fun e => negb (String.eqb k (fst e))) d) = None.
Proof.
  induction d as [|[k0 v0] d IH]; simpl; [reflexivity|].
  destruct (String.eqb k k0) eqn:E; simpl; [assumption|].
  now rewrite E.
Qed.

Lemma dict_del_length k d :
  dict_contains k d = true -> S (List.length (dict_del k d)) = List.length d.
Proof.
  unfold dict_contains.
  induction d as [|[k' v'] d IH]; simpl; [discriminate|].
  destruct (String.eqb k k') eqn:E; simpl; [reflexivity|].
  intros H. now rewrite IH.
Qed.

Lemma dict_del_wf k d : dict_wf d -> dict_wf (dict_del k d).
Proof.
  intros Hwf. rewrite dict_del_filter by assumption.
  unfold dict_wf, dict_keys in *.
  induction d as [|[k' v'] d IH]; simpl; [constructor|].
  inversion Hwf as [|? ? Hnotin Hwf']; subst.
  destruct (negb (String.eqb k k')); simpl; [|now apply IH].
  constructor; [|now apply IH].
  intros Hin. apply Hnotin.
  apply in_map_iff in Hin. destruct Hin as [e [He Hin]].
  apply filter_In in Hin. apply in_map_iff. exists e. tauto.
Qed.

End DictFacts.

(** ** Running the monad *)

Lemma bind_Ok {A B} (m : M A) (f : A -> M B) st a st' :
  m st = (Ok a, st') -> bind m f st = f a st'.
Proof. unfold bind. now intros ->. Qed.

Lemma bind_Raise {A B} (m : M A) (f : A -> M B) st e st' :
  m st = (Raise e, st') -> bind m f st = (Raise e, st').
Proof. unfold bind. now intros ->. Qed.

Lemma register_run cmd st :
  register cmd st =
  (Ok tt, mkState (dict_set (name cmd) cmd (commands st)) (trace st)).
Proof. reflexivity. Qed.

Lemma get_run nm st :
  get nm st =
  match dict_get nm (commands st) with
  | Some cmd => (Ok cmd, st)
  | None => (Raise (KeyError nm), st)
  end.
Proof.
  unfold get, commands_getitem, bind, get_commands. cbv beta.
  now destruct (dict_get nm (commands st)).
Qed.

Lemma colliding_keyword_self kw :
  colliding_keyword call_parameters kw = None ->
  colliding_keyword ["self"] kw = None.
Proof.
  unfold colliding_keyword, call_parameters.
  induction kw as [|[k v] kw IH]; simpl; [reflexivity|].
  destruct (String.eqb k "self"); simpl; [discriminate|].
  destruct (String.eqb k "command_name"); simpl; [discriminate|].
  exact IH.
Qed.

Lemma call_run nm kw st :
  call nm kw st =
  match colliding_keyword call_parameters kw with
  | Some param => (Raise (multiple_values "CommandRegistry.call" param), st)
  | None =>
      match dict_get nm (commands st) with
      | Some cmd =>
          (run (method cmd) kw,
           mkState (commands st) (trace st ++ [EvInvoke (name cmd) kw]))
      | None => (Raise (not_found nm), st)
      end
  end.
Proof.
  unfold call, bind_keywords. unfold bind at 1.
  destruct (colliding_keyword call_parameters kw) as [param|] eqn:Hkw;
    [reflexivity|].
  cbn [ret].
  unfold commands_getitem, bind, get_commands, dict_contains.
  destruct (dict_get nm (commands st)) eqn:E; cbn [negb];
    [|reflexivity].
  rewrite E. unfold Command_call, bind_keywords, bind.
  rewrite (colliding_keyword_self _ Hkw). reflexivity.
Qed.

(** ** [register], [unregister], [get], [call] *)

(** C3: registering [c1] and then [c2] under the same name succeeds, leaves
    one entry for that name, makes [get] return [c2], and gives the state
    that registering [c2] alone gives. *)
Theorem register_last_wins (st : State) (c1 c2 : Command) :
  dict_wf (commands st) ->
  name c1 = name c2 ->
  let after := (register c1 ;; register c2) st in
  fst after = Ok tt /\
  count_occ string_dec (dict_keys (commands (snd after))) (name c2) = 1 /\
  get (name c2) (snd after) = (Ok c2, snd after) /\
  after = register c2 st.
Proof.
  intros Hwf Hname after. subst after.
  unfold bind. rewrite !register_run. cbn [fst snd commands trace].
  rewrite Hname, dict_set_set.
  repeat split.
  - now apply dict_set_count.
  - rewrite get_run. cbn [commands]. now rewrite dict_get_set_same.
Qed.

Lemma register_last_wins_witness :
  let after := (register cmd_add ;; register cmd_add') empty_state in
  fst after = Ok tt /\
  count_occ string_dec (dict_keys (commands (snd after))) "add" = 1 /\
  get "add" (snd after) = (Ok cmd_add', snd after) /\
  after = register cmd_add' empty_state.
Proof.
  apply (register_last_wins empty_state cmd_add cmd_add').
  - constructor.
  - reflexivity.
Defined.

(** C4: [unregister] of an absent name raises a [KeyError] and changes
    nothing; [unregister] of a present name succeeds, removes that entry and
    no other, and a later [get] of the name raises a [KeyError]. *)
Theorem unregister_not_found (st : State) (nm : string) :
  dict_wf (commands st) ->
  (dict_get nm (commands st) = None ->
   unregister nm st = (Raise (not_found nm), st) /\
   is_NotFound (not_found nm) = true) /\
  (forall cmd, dict_get nm (commands st) = Some cmd ->
   exists st',
     unregister nm st = (Ok tt, st') /\
     commands st' =
       filter (fun e => negb (String.eqb nm (fst e))) (commands st) /\
     S (List.length (commands st')) = List.length (commands st) /\
     (forall k, k <> nm ->
        dict_get k (commands st') = dict_get k (commands st)) /\
     get nm st' = (Raise (KeyError nm), st') /\
     is_NotFound (KeyError nm) = true).
Proof.
  intros Hwf. split.
  - intros Habs. split; [|reflexivity].
    unfold unregister, bind, get_commands, dict_contains. now rewrite Habs.
  - intros cmd Hpres.
    assert (Hc : dict_contains nm (commands st) = true)
      by (unfold dict_contains; now rewrite Hpres).
    exists (mkState (dict_del nm (commands st)) (trace st)).
    unfold unregister, bind, get_commands. rewrite Hc. cbn [commands].
    rewrite get_run. cbn [commands].
    rewrite <- (dict_del_filter nm Hwf) at 1.
    repeat split.
    + now apply dict_del_length.
    + intros k Hk. rewrite dict_del_filter by assumption.
      apply dict_get_filter_other. congruence.
    + rewrite dict_del_filter by assumption.
      now rewrite dict_get_filter_same.
Qed.

Lemma unregister_not_found_witness :
  unregister "sub" state_add = (Raise (not_found "sub"), state_add) /\
  exists st',
    unregister "add" state_add = (Ok tt, st') /\
    get "add" st' = (Raise (KeyError "add"), st').
Proof.
  assert (Hwf : dict_wf (commands state_add)).
  { repeat constructor. simpl. tauto. }
  destruct (unregister_not_found state_add "sub" Hwf) as [Habs _].
  destruct (unregister_not_found state_add "add" Hwf) as [_ Hpres].
  split.
  - apply Habs. reflexivity.
  - destruct (Hpres cmd_add eq_refl) as [st' H].
    exists st'. tauto.
Defined.

(** C5, as the code has it: [call] of an absent name, with keywords that do
    not bear the name of a parameter of [call] itself ([self],
    [command_name]), raises the "not found" [KeyError]; with such a keyword
    it raises a [TypeError] at binding instead.  Either way the state, trace
    included, is as it was: no command's method is invoked. *)
Theorem call_missing (st : State) (nm : string) (kw : kwargs) :
  dict_get nm (commands st) = None ->
  (colliding_keyword call_parameters kw = None ->
   call nm kw st = (Raise (not_found nm), st) /\
   is_NotFound (not_found nm) = true) /\
  (forall param,
     colliding_keyword call_parameters kw = Some param ->
     exists msg, call nm kw st = (Raise (TypeError msg), st)) /\
  snd (call nm kw st) = st /\
  forall cmd args, In (EvInvoke cmd args) (trace (snd (call nm kw st))) ->
                   In (EvInvoke cmd args) (trace st).
Proof.
  intros Habs. rewrite call_run, Habs.
  destruct (colliding_keyword call_parameters kw) as [param|].
  - split; [discriminate|]. split; [|split; [reflexivity|auto]].
    intros p _. eexists. reflexivity.
  - split; [auto|]. split; [discriminate|]. split; [reflexivity|auto].
Qed.

Lemma call_missing_witness :
  call "missing" [("x", VInt 1%Z)] state_add =
    (Raise (not_found "missing"), state_add) /\
  exists msg,
    call "missing" [("x", VInt 1%Z); ("self", VNone)] state_add =
      (Raise (TypeError msg), state_add).
Proof.
  split.
  - apply (proj1 (call_missing state_add "missing" [("x", VInt 1%Z)]
                    eq_refl)).
    reflexivity.
  - apply (proj1 (proj2 (call_missing state_add "missing"
                           [("x", VInt 1%Z); ("self", VNone)] eq_refl))
             "self").
    reflexivity.
Defined.

(** C5, as stated, fails: "missing" is absent, yet with the keyword
    [command_name] the call does not end in a "not found" error. *)
Lemma call_missing_colliding_keyword :
  dict_get "missing" (commands state_add) = None /\
  fst (call "missing" [("command_name", VInt 5%Z)] state_add) =
    Raise (multiple_values "CommandRegistry.call" "command_name") /\
  is_NotFound (multiple_values "CommandRegistry.call" "command_name") = false /\
  fst (call "missing" [("command_name", VInt 5%Z)] state_add) <>
    Raise (not_found "missing").
Proof. repeat split. discriminate. Qed.

(** C6, as the code has it: after [register c], [call (name c) kw] with
    keywords that do not bear the name of a parameter of [call] itself
    yields what the method of [c] yields on [kw], a value or a failure
    alike, having invoked it once; with such a keyword it raises a
    [TypeError] at binding and the method is not invoked. *)
Theorem register_call_roundtrip (st : State) (c : Command) (kw : kwargs) :
  (colliding_keyword call_parameters kw = None ->
   (register c ;; call (name c) kw) st =
   (run (method c) kw,
    mkState (dict_set (name c) c (commands st))
            (trace st ++ [EvInvoke (name c) kw]))) /\
  (forall param,
     colliding_keyword call_parameters kw = Some param ->
     exists msg,
       (register c ;; call (name c) kw) st =
       (Raise (TypeError msg),
        mkState (dict_set (name c) c (commands st)) (trace st))).
Proof.
  unfold bind. rewrite register_run, call_run.
  cbn [commands trace]. rewrite dict_get_set_same.
  destruct (colliding_keyword call_parameters kw) as [param|].
  - split; [discriminate|]. intros p _. eexists. reflexivity.
  - split; [reflexivity|discriminate].
Qed.

Lemma register_call_roundtrip_witness :
  fst ((register cmd_add ;; call "add" [("x", VInt 7%Z); ("y", VInt 1%Z)])
         empty_state) = Ok (VInt 7%Z) /\
  fst ((register cmd_add ;; call "add" [("x", VInt 7%Z)]) empty_state) =
    Raise (TypeError "f() missing 1 required positional argument: 'y'") /\
  exists msg,
    fst ((register cmd_echo ;; call "echo" [("command_name", VInt 5%Z)])
           empty_state) = Raise (TypeError msg).
Proof.
  split; [|split].
  - exact (f_equal fst
             (proj1 (register_call_roundtrip empty_state cmd_add
                       [("x", VInt 7%Z); ("y", VInt 1%Z)]) eq_refl)).
  - exact (f_equal fst
             (proj1 (register_call_roundtrip empty_state cmd_add
                       [("x", VInt 7%Z)]) eq_refl)).
  - destruct (proj2 (register_call_roundtrip empty_state cmd_echo
                       [("command_name", VInt 5%Z)]) "command_name" eq_refl)
      as [msg Hmsg].
    exists msg. exact (f_equal fst Hmsg).
Defined.

(** C6, as stated, fails: [command_name=5] is a valid call of [echo] and
    gives 5, yet after [register] the same keywords through [call] raise a
    [TypeError] and [echo] is not invoked. *)
Lemma roundtrip_fails_on_colliding_keyword :
  run (method cmd_echo) [("command_name", VInt 5%Z)] = Ok (VInt 5%Z) /\
  (register cmd_echo ;; call "echo" [("command_name", VInt 5%Z)])
    empty_state =
    (Raise (multiple_values "CommandRegistry.call" "command_name"),
     mkState [("echo", cmd_echo)] []) /\
  fst ((register cmd_echo ;; call "echo" [("command_name", VInt 5%Z)])
         empty_state) <>
    run (method cmd_echo) [("command_name", VInt 5%Z)].
Proof. repeat split. discriminate. Qed.

(** ** Signatures *)

Lemma append_nil_r (s : string) : (s ++ "")%string = s.
Proof. induction s; simpl; congruence. Qed.

Lemma append_assoc (a b c : string) :
  (a ++ (b ++ c))%string = ((a ++ b) ++ c)%string.
Proof. induction a; simpl; congruence. Qed.

Lemma join_concat sep items : join sep items = String.concat sep items.
Proof.
  induction items as [|x [|y rest] IH]; simpl in *; congruence.
Qed.

Lemma join_cons sep x items :
  join sep (x :: items) =
  (x ++ String.concat "" (map (fun y => sep ++ y) items))%string.
Proof.
  revert x. induction items as [|y rest IH]; intros x.
  - simpl. symmetry. apply append_nil_r.
  - change (join sep (x :: y :: rest))
      with (x ++ sep ++ join sep (y :: rest))%string.
    rewrite IH. f_equal.
    destruct rest as [|z rest']; simpl.
    + now rewrite !append_nil_r.
    + apply append_assoc.
Qed.

(** C2, as the code has it: a [Command] built without a (non-empty)
    signature gets the parameters of its method in declaration order, each
    as "name: type", joined with ", ", where the type is the annotation's
    [__name__] if it has one and its [str()] otherwise, which makes "_empty"
    the marker of an untyped parameter; the return annotation and the body
    play no part; [f(x: int, y)] gives "x: int, y: _empty". *)
Theorem signature_derived (cls nm descr : string) (m : Method)
    (sig : option string) :
  truthy_str sig = None ->
  signature (Command_init cls nm descr m sig) =
    String.concat ", " (map render_parameter (parameters m)) /\
  (forall p rest, parameters m = p :: rest ->
     signature (Command_init cls nm descr m sig) =
       (render_parameter p ++
        String.concat "" (map (fun q => ", " ++ render_parameter q) rest))
       %string) /\
  (forall p, In p (parameters m) ->
     (param_annotation p = Parameter_empty ->
      render_parameter p = (param_name p ++ ": _empty")%string) /\
     (forall ty, obj_name (param_annotation p) = Some ty ->
      render_parameter p = (param_name p ++ ": " ++ ty)%string) /\
     (obj_name (param_annotation p) = None ->
      render_parameter p =
        (param_name p ++ ": " ++ obj_str (param_annotation p))%string)) /\
  (forall ret' run',
     signature
       (Command_init cls nm descr (mkMethod (parameters m) ret' run') sig) =
     signature (Command_init cls nm descr m sig)) /\
  signature (Command_new nm descr f_xy sig) = "x: int, y: _empty".
Proof.
  intros Hsig. unfold Command_new, Command_init. cbn [signature].
  rewrite Hsig. unfold get_function_signature. cbn [parameters].
  split; [apply join_concat|].
  split; [intros p rest ->; cbn [map]; now rewrite join_cons, map_map|].
  split; [|split; reflexivity].
  intros p _. split; [|split].
  - intros Hempty. unfold render_parameter. now rewrite Hempty.
  - intros ty Hty. unfold render_parameter. now rewrite Hty.
  - intros Hnone. unfold render_parameter. now rewrite Hnone.
Qed.

Lemma signature_derived_witness :
  signature (Command_init "plugins.math" "f" "" f_xy (Some "")) =
    "x: int, y: _empty".
Proof.
  apply (signature_derived "plugins.math" "f" "" f_xy (Some "") eq_refl).
Defined.

(** C2, as stated, fails: the untyped [y] is not rendered as "y: Any". *)
Lemma signature_untyped_is_not_Any :
  signature (Command_new "f" "" f_xy None) = "x: int, y: _empty" /\
  signature (Command_new "f" "" f_xy None) <> "x: int, y: Any".
Proof. split; [reflexivity | discriminate]. Qed.

(** ** Sorting *)

Lemma leb_lt_or_eq (a b : string) :
  String.leb a b = true <-> String_as_OT.lt a b \/ a = b.
Proof.
  unfold String.leb.
  destruct (String.compare a b) eqn:E.
  - apply String_as_OT.cmp_eq in E. tauto.
  - apply String_as_OT.cmp_lt in E. tauto.
  - split; [discriminate|].
    intros [H | H].
    + apply String_as_OT.cmp_lt in H. unfold String_as_OT.cmp in H. congruence.
    + apply String_as_OT.cmp_eq in H. unfold String_as_OT.cmp in H. congruence.
Qed.

Lemma leb_trans (a b c : string) :
  String.leb a b = true -> String.leb b c = true -> String.leb a c = true.
Proof.
  rewrite !leb_lt_or_eq.
  intros [H1 | ->] [H2 | ->]; auto.
  left. exact (String_as_OT.lt_trans _ _ _ H1 H2).
Qed.

Lemma ltb_false_leb (a b : string) :
  String.ltb a b = false -> String.leb b a = true.
Proof.
  unfold String.ltb, String.leb. rewrite (String.compare_antisym b a).
  destruct (String.compare a b); simpl; congruence.
Qed.

Lemma ltb_true_leb (a b : string) :
  String.ltb a b = true -> String.leb a b = true.
Proof.
  unfold String.ltb, String.leb.
  destruct (String.compare a b); simpl; congruence.
Qed.

Section SortFacts.

Context {A : Type} (key : A -> string).

Lemma insert_by_perm x l : Permutation (insert_by key x l) (x :: l).
Proof.
  induction l as [|y l IH]; simpl; [reflexivity|].
  destruct (String.ltb (key y) (key x)); [|reflexivity].
  rewrite IH. apply perm_swap.
Qed.

Lemma sort_by_perm l : Permutation (sort_by key l) l.
Proof.
  induction l as [|x l IH]; simpl; [reflexivity|].
  rewrite insert_by_perm. now constructor.
Qed.

Lemma insert_by_sorted x l :
  StronglySorted (key_le key) l -> StronglySorted (key_le key) (insert_by key x l).
Proof.
  induction l as [|y l IH]; intros Hs; simpl.
  - repeat constructor.
  - inversion Hs as [|? ? Hs' Hall]; subst.
    destruct (String.ltb (key y) (key x)) eqn:E.
    + constructor; [now apply IH|].
      apply Forall_forall. intros z Hz.
      apply (Permutation_in _ (insert_by_perm x l)) in Hz.
      destruct Hz as [<- | Hz].
      * now apply ltb_true_leb.
      * rewrite Forall_forall in Hall. now apply Hall.
    + apply ltb_false_leb in E.
      constructor; [assumption|].
      constructor; [assumption|].
      eapply Forall_impl; [|exact Hall].
      intros z Hz. unfold key_le in *. eapply leb_trans; eassumption.
Qed.

Lemma sort_by_sorted l : StronglySorted (key_le key) (sort_by key l).
Proof.
  induction l as [|x l IH]; simpl; [constructor|].
  now apply insert_by_sorted.
Qed.

End SortFacts.

Lemma nth_error_enumerate_from {A} (l : list A) (start i : nat) (x : A) :
  nth_error l i = Some x ->
  nth_error (combine (seq start (List.length l)) l) i = Some (start + i, x).
Proof.
  revert start i. induction l as [|y l IH]; intros start [|i]; simpl;
    try discriminate.
  - intros [= ->]. now rewrite Nat.add_0_r.
  - intros H. rewrite (IH (S start) i H). f_equal. f_equal. lia.
Qed.

Lemma enumerate_length {A} (l : list A) :
  List.length (enumerate l) = List.length l.
Proof.
  unfold enumerate. rewrite length_combine, length_seq. lia.
Qed.

(** ** [command_prompt] *)

(** C7: [command_prompt] returns, without changing the state, the lines
    "<n>. <name>(<signature>)" joined by the newline character, one per
    registered command, numbered in decimal from 1, the commands taken in
    ascending order of [name] (strings compared character by character);
    asking again gives the same; commands registered as "b", "a", "c" are
    listed as a, b, c on three lines. *)
Theorem command_prompt_listing (st : State) :
  (exists cmds lines,
     command_prompt st = (Ok (String.concat (String "010" "") lines), st) /\
     Permutation cmds (map snd (commands st)) /\
     StronglySorted (fun a b => String.leb (name a) (name b) = true) cmds /\
     List.length lines = List.length (commands st) /\
     forall i c, nth_error cmds i = Some c ->
       nth_error lines i =
       Some (NilEmpty.string_of_uint (Nat.to_uint (i + 1)) ++ ". " ++
             name c ++ "(" ++ signature c ++ ")")%string) /\
  command_prompt (snd (command_prompt st)) = command_prompt st /\
  (forall cls_a cls_b cls_c descr_a descr_b descr_c meth_a meth_b meth_c
          sig_a sig_b sig_c,
     let ca := Command_init cls_a "a" descr_a meth_a sig_a in
     let cb := Command_init cls_b "b" descr_b meth_b sig_b in
     let cc := Command_init cls_c "c" descr_c meth_c sig_c in
     fst (command_prompt
            (snd ((register cb ;; register ca ;; register cc)
                    (mkState [] (trace st))))) =
     Ok (("1. a(" ++ signature ca ++ ")") ++ String "010" "" ++
         ("2. b(" ++ signature cb ++ ")") ++ String "010" "" ++
         ("3. c(" ++ signature cc ++ ")"))%string) /\
  (forall descr_a descr_b descr_c meth_a meth_b meth_c,
     fst (command_prompt
            (snd ((register (Command_new "b" descr_b meth_b (Some "y: str")) ;;
                   register (Command_new "a" descr_a meth_a (Some "x: int")) ;;
                   register (Command_new "c" descr_c meth_c (Some "z")))
                    (mkState [] (trace st))))) =
     Ok "1. a(x: int)
2. b(y: str)
3. c(z)").
Proof.
  split; [|split; [|split]].
  - exists (sort_by name (dict_values (commands st))).
    exists (map prompt_line
              (enumerate (sort_by name (dict_values (commands st))))).
    split.
    { unfold command_prompt, bind, get_commands, ret. cbv beta iota zeta.
      now rewrite join_concat. }
    split; [apply sort_by_perm|].
    split; [apply (sort_by_sorted name)|].
    split.
    + rewrite length_map, enumerate_length.
      rewrite (Permutation_length (sort_by_perm name _)).
      unfold dict_values. apply length_map.
    + intros i c Hi. unfold enumerate.
      rewrite nth_error_map.
      rewrite (nth_error_enumerate_from _ 0 _ Hi). reflexivity.
  - reflexivity.
  - intros. reflexivity.
  - intros. reflexivity.
Qed.

(** ** The invariant *)

Section Preservation.

Variable P : dict Command -> Prop.

Lemma preserves_ret {A} (a : A) : preserves P (ret a).
Proof. intros st H. exact H. Qed.

Lemma preserves_raise {A} (e : exn) : preserves P (@raise A e).
Proof. intros st H. exact H. Qed.

Lemma preserves_lift {A} (r : Exc A) : preserves P (lift r).
Proof. intros st H. exact H. Qed.

Lemma preserves_emit ev : preserves P (emit ev).
Proof. intros st H. exact H. Qed.

Lemma preserves_bind {A B} (m : M A) (f : A -> M B) :
  preserves P m -> (forall a, preserves P (f a)) -> preserves P (bind m f).
Proof.
  intros Hm Hf st H. unfold bind.
  specialize (Hm st H). destruct (m st) as [[a|e] st']; simpl in *.
  - now apply Hf.
  - exact Hm.
Qed.

Lemma preserves_for_each {A} (xs : list A) (body : A -> M unit) :
  (forall x, preserves P (body x)) -> preserves P (for_each xs body).
Proof.
  intros Hbody. induction xs as [|x xs IH]; simpl.
  - apply preserves_ret.
  - apply preserves_bind; auto.
Qed.

Lemma preserves_dict_iter di_used di_pos len (body : string -> M unit) :
  (forall key, preserves P (body key)) ->
  preserves P (dict_iter di_used di_pos len body).
Proof.
  intros Hbody. revert di_pos.
  induction len as [|len IH]; intros di_pos st H; simpl;
    destruct (negb (Nat.eqb (List.length (commands st)) di_used));
    try exact H;
    destruct (nth_error (dict_keys (commands st)) di_pos) as [key|];
    try exact H.
  apply (preserves_bind (m := body key)); auto.
Qed.

Lemma preserves_commands_getitem key : preserves P (commands_getitem key).
Proof.
  intros st H. unfold commands_getitem, bind, get_commands. cbv beta.
  now destruct (dict_get key (commands st)).
Qed.

Hypothesis P_register :
  forall cmd d, P d -> P (dict_set (name cmd) cmd d).

Lemma preserves_register cmd : preserves P (register cmd).
Proof. intros st H. rewrite register_run. now apply P_register. Qed.

Variable loader : Loader.

Lemma preserves_importlib nm : preserves P (importlib_import_module loader nm).
Proof.
  apply preserves_bind; [apply preserves_emit|].
  intros _. apply preserves_lift.
Qed.

Lemma preserves_reload_one key : preserves P (reload_one loader key).
Proof.
  apply preserves_bind; [apply preserves_commands_getitem|]. intros cmd.
  apply preserves_bind; [apply preserves_importlib|]. intros u.
  apply preserves_bind.
  { apply preserves_bind; [apply preserves_emit|].
    intros _. apply preserves_lift. }
  intros u'. destruct (register_entry u') as [cmds|].
  - apply preserves_bind; [apply preserves_emit|]. intros _.
    apply preserves_for_each. apply preserves_register.
  - apply preserves_ret.
Qed.

Lemma preserves_reload_commands : preserves P (reload_commands loader).
Proof.
  intros st H. unfold reload_commands, bind, get_commands. cbv beta iota.
  apply preserves_dict_iter; [apply preserves_reload_one | exact H].
Qed.

Lemma preserves_import_member attr : preserves P (import_member attr).
Proof.
  unfold import_member.
  destruct (ix_command attr) as [[|[|]| |]|];
    try (destruct (class_kind attr);
         try apply preserves_ret;
         apply preserves_bind;
         [apply preserves_lift | apply preserves_register]).
  destruct (command_attr attr).
  - apply preserves_register.
  - apply preserves_raise.
Qed.

Lemma preserves_import_commands nm : preserves P (import_commands loader nm).
Proof.
  apply preserves_bind; [apply preserves_importlib|]. intros u.
  apply preserves_for_each. intros attr_name.
  apply preserves_bind; [|apply preserves_import_member].
  unfold getattr_module. destruct (dict_get attr_name (members u)).
  - apply preserves_ret.
  - apply preserves_raise.
Qed.

End Preservation.

Lemma registry_inv_set cmd d :
  registry_inv d -> registry_inv (dict_set (name cmd) cmd d).
Proof.
  unfold registry_inv.
  induction d as [|[k v] d IH]; simpl; intros H.
  - repeat constructor.
  - inversion H; subst.
    destruct (String.eqb (name cmd) k); constructor; auto.
Qed.

Lemma registry_inv_del nm d : registry_inv d -> registry_inv (dict_del nm d).
Proof.
  unfold registry_inv.
  induction d as [|[k v] d IH]; simpl; intros H; [constructor|].
  inversion H; subst.
  destruct (String.eqb nm k); [assumption|]. constructor; auto.
Qed.

(** C8: [register], [unregister], [import_commands], [reload_commands] and
    [for_tools] keep every key equal to the [name] of its value, whether
    they return or raise; and what [get], [call] and [command_prompt]
    answer is a function of the mapping alone. *)
Theorem registry_invariant (loader : Loader) (st : State) :
  registry_inv (commands st) ->
  (forall cmd, registry_inv (commands (snd (register cmd st)))) /\
  (forall nm, registry_inv (commands (snd (unregister nm st)))) /\
  (forall unit_nm,
     registry_inv (commands (snd (import_commands loader unit_nm st)))) /\
  registry_inv (commands (snd (reload_commands loader st))) /\
  (forall tools, registry_inv (commands (snd (for_tools loader tools st)))) /\
  (forall st2 nm kw,
     commands st2 = commands st ->
     fst (get nm st2) = fst (get nm st) /\
     fst (call nm kw st2) = fst (call nm kw st) /\
     fst (command_prompt st2) = fst (command_prompt st)).
Proof.
  intros Hinv.
  split; [|split; [|split; [|split; [|split]]]].
  - intros cmd. now apply preserves_register; [apply registry_inv_set|].
  - intros nm. unfold unregister, bind, get_commands. cbv beta iota.
    destruct (dict_contains nm (commands st)); simpl; [|assumption].
    now apply registry_inv_del.
  - intros unit_nm.
    now apply preserves_import_commands; [apply registry_inv_set|].
  - now apply preserves_reload_commands; [apply registry_inv_set|].
  - intros tools. unfold for_tools, bind, CommandRegistry_init, put_commands.
    cbv beta iota.
    apply preserves_for_each.
    + intros nm. apply preserves_import_commands. apply registry_inv_set.
    + constructor.
  - intros st2 nm kw Heq.
    rewrite !get_run, !call_run, Heq.
    split; [|split].
    + now destruct (dict_get nm (commands st)).
    + destruct (colliding_keyword call_parameters kw); [reflexivity|].
      now destruct (dict_get nm (commands st)).
    + unfold command_prompt, bind, get_commands, ret. cbv beta iota.
      now rewrite Heq.
Qed.

(** ** [import_commands] and [for_tools] *)

Lemma for_each_register cmds st :
  for_each cmds register st =
  (Ok tt, mkState (register_all cmds (commands st)) (trace st)).
Proof.
  revert st. induction cmds as [|c cmds IH]; intros st; simpl.
  - now destruct st.
  - unfold bind. rewrite register_run, IH. reflexivity.
Qed.

Lemma register_all_app xs ys d :
  register_all (xs ++ ys) d = register_all ys (register_all xs d).
Proof. apply fold_left_app. Qed.

Lemma import_member_run attr st :
  import_member attr st =
  match discover_member attr with
  | Ok (Some cmd) => register cmd st
  | Ok None => (Ok tt, st)
  | Raise e => (Raise e, st)
  end.
Proof.
  unfold import_member, discover_member.
  destruct (ix_command attr) as [[|[|]| |]|];
    try (destruct (class_kind attr) as [| |[cmd|e]|]; reflexivity).
  now destruct (command_attr attr).
Qed.

Lemma import_loop_run (module : Unit) (names : list string) st :
  (forall nm, In nm names -> In nm (dict_keys (members module))) ->
  for_each names
    (fun attr_name =>
       attr <- getattr_module module attr_name ;; import_member attr) st =
  (result_of (snd (discover (attrs_of module names))),
   mkState (register_all (fst (discover (attrs_of module names)))
              (commands st))
           (trace st)).
Proof.
  revert st. induction names as [|nm names IH]; intros st Hin.
  - simpl. now destruct st.
  - assert (Hnm : In nm (dict_keys (members module)))
      by (apply Hin; now left).
    assert (Hrest : forall n, In n names -> In n (dict_keys (members module)))
      by (intros n Hn; apply Hin; now right).
    destruct (dict_get nm (members module)) as [attr|] eqn:Hget;
      [|now apply dict_get_None in Hget].
    cbn [for_each attrs_of flat_map]. rewrite Hget.
    change (flat_map _ names) with (attrs_of module names).
    cbn [app discover].
    unfold bind at 1. unfold bind at 1. unfold getattr_module.
    rewrite Hget. cbn [ret]. rewrite import_member_run.
    destruct (discover_member attr) as [[cmd|]|e].
    + rewrite register_run, IH by assumption. reflexivity.
    + now rewrite IH.
    + now destruct st.
Qed.

Lemma dir_in_members module nm :
  In nm (dir module) -> In nm (dict_keys (members module)).
Proof.
  unfold dir. apply Permutation_in. apply sort_by_perm.
Qed.

Lemma import_commands_run loader nm st :
  import_commands loader nm st =
  (result_of (snd (import_outcome loader nm)),
   mkState (register_all (fst (import_outcome loader nm)) (commands st))
           (trace st ++ [EvResolve nm])).
Proof.
  unfold import_commands, import_outcome, importlib_import_module.
  unfold bind at 1. unfold bind at 1. unfold emit, lift.
  destruct (import_module loader nm) as [module|e]; [|reflexivity].
  rewrite import_loop_run by apply dir_in_members. reflexivity.
Qed.

Lemma for_each_import_ok loader names st :
  Forall (fun nm => snd (import_outcome loader nm) = None) names ->
  for_each names (import_commands loader) st =
  (Ok tt,
   mkState (register_all
              (flat_map (fun nm => fst (import_outcome loader nm)) names)
              (commands st))
           (trace st ++ map EvResolve names)).
Proof.
  intros Hall. revert st.
  induction Hall as [|nm names Hnm Hall IH]; intros st; simpl.
  - rewrite app_nil_r. now destruct st.
  - unfold bind. rewrite import_commands_run, Hnm. cbn [result_of].
    rewrite IH. cbn [commands trace].
    now rewrite register_all_app, <- app_assoc.
Qed.

Lemma for_each_app {A} (xs ys : list A) (body : A -> M unit) st :
  for_each (xs ++ ys) body st = (for_each xs body ;; for_each ys body) st.
Proof.
  revert st. induction xs as [|x xs IH]; intros st; simpl.
  - reflexivity.
  - unfold bind. destruct (body x st) as [[[]|e] st']; [|reflexivity].
    rewrite IH. reflexivity.
Qed.

Lemma dict_get_register_all nm cmds d :
  dict_get nm (register_all cmds d) =
  match last_named nm cmds with
  | Some cmd => Some cmd
  | None => dict_get nm d
  end.
Proof.
  unfold last_named. revert d.
  induction cmds as [|c cmds IH] using rev_ind; intros d.
  - reflexivity.
  - rewrite register_all_app, rev_app_distr. simpl.
    destruct (String.eqb nm (name c)) eqn:E.
    + apply String.eqb_eq in E. subst nm. apply dict_get_set_same.
    + apply String.eqb_neq in E.
      rewrite dict_get_set_other by congruence. apply IH.
Qed.

(** C9: [for_tools] starts from an empty registry and imports the named
    units in order, an absent list counting as empty.  When every unit
    imports, the registry holds, for each name offered by some unit, the
    command offered last, and nothing else.  When a unit fails after others
    imported, that failure is the result, no later unit is resolved, and
    what was registered before stays registered. *)
Theorem for_tools_sequential (loader : Loader) (st : State)
    (names : list string) :
  Forall (fun nm => snd (import_outcome loader nm) = None) names ->
  let found := flat_map (fun nm => fst (import_outcome loader nm)) names in
  for_tools loader None st = (Ok tt, mkState [] (trace st)) /\
  for_tools loader (Some names) st =
    (Ok tt,
     mkState (register_all found []) (trace st ++ map EvResolve names)) /\
  (forall nm, dict_get nm (register_all found []) = last_named nm found) /\
  (forall bad rest e,
     snd (import_outcome loader bad) = Some e ->
     for_tools loader (Some (names ++ bad :: rest)) st =
       (Raise e,
        mkState (register_all (found ++ fst (import_outcome loader bad)) [])
                (trace st ++ map EvResolve (names ++ [bad])))).
Proof.
  intros Hall found.
  split; [reflexivity|].
  split.
  { unfold for_tools, bind, CommandRegistry_init, put_commands.
    cbv beta iota. cbn [or_empty].
    now rewrite for_each_import_ok. }
  split.
  { intros nm. rewrite dict_get_register_all.
    now destruct (last_named nm found). }
  intros bad rest e Hbad.
  unfold for_tools, bind at 1, CommandRegistry_init, put_commands.
  cbv beta iota. cbn [or_empty].
  rewrite for_each_app. unfold bind at 1.
  rewrite for_each_import_ok by assumption.
  cbn [for_each]. unfold bind at 1.
  rewrite import_commands_run, Hbad. cbn [result_of commands trace].
  fold found. rewrite register_all_app, map_app, <- app_assoc.
  reflexivity.
Qed.

Lemma for_tools_sequential_witness :
  for_tools tools_loader (Some ["unitA"; "unitB"]) empty_state =
    (Ok tt,
     mkState [("add", cmd_add'); ("sub", cmd_sub)]
             [EvResolve "unitA"; EvResolve "unitB"]) /\
  for_tools tools_loader (Some ["unitA"; "unitB"; "missing"; "unitA"])
    empty_state =
    (Raise (ImportError "missing"),
     mkState [("add", cmd_add'); ("sub", cmd_sub)]
             [EvResolve "unitA"; EvResolve "unitB"; EvResolve "missing"]).
Proof.
  assert (Hall : Forall (fun nm => snd (import_outcome tools_loader nm) = None)
                   ["unitA"; "unitB"])
    by (repeat constructor).
  destruct (for_tools_sequential tools_loader empty_state Hall)
    as (_ & Hok & _ & Hfail).
  split.
  - exact Hok.
  - exact (Hfail "missing" ["unitA"] (ImportError "missing") eq_refl).
Defined.

(** ** [reload_commands] *)

Lemma reload_one_run loader key st :
  reload_one loader key st =
  match dict_get key (commands st) with
  | None => (Raise (KeyError key), st)
  | Some cmd =>
      let resolved := trace st ++ [EvResolve (class_module cmd)] in
      match import_module loader (class_module cmd) with
      | Raise e => (Raise e, mkState (commands st) resolved)
      | Ok module =>
          let reloaded := resolved ++ [EvReload (unit_name module)] in
          match reload loader module with
          | Raise e => (Raise e, mkState (commands st) reloaded)
          | Ok module' =>
              match register_entry module' with
              | None => (Ok tt, mkState (commands st) reloaded)
              | Some cmds =>
                  (Ok tt,
                   mkState (register_all cmds (commands st))
                           (reloaded ++ [EvEntry (unit_name module')]))
              end
          end
      end
  end.
Proof.
  unfold reload_one, commands_getitem. unfold bind at 1. unfold bind at 1.
  unfold get_commands.
  destruct (dict_get key (commands st)) as [cmd|]; [|reflexivity].
  cbn [ret]. unfold bind at 1.
  unfold _import_module, importlib_import_module, bind at 1, emit, lift.
  destruct (import_module loader (class_module cmd)) as [module|e];
    [|reflexivity].
  unfold bind at 1. unfold _reload_module, bind at 1, emit, lift.
  cbn [commands trace].
  destruct (reload loader module) as [module'|e]; [|reflexivity].
  destruct (register_entry module') as [cmds|]; [|reflexivity].
  unfold call_register_entry, bind, emit.
  rewrite for_each_register. reflexivity.
Qed.

Lemma register_all_length_le cmds d :
  List.length d <= List.length (register_all cmds d).
Proof.
  revert d. induction cmds as [|c cmds IH]; intros d; simpl; [lia|].
  specialize (IH (dict_set (name c) c d)).
  rewrite dict_set_length in IH.
  destruct (dict_contains (name c) d); lia.
Qed.

Lemma register_all_grows cmds d c :
  In c cmds -> dict_get (name c) d = None ->
  List.length d < List.length (register_all cmds d).
Proof.
  revert d. induction cmds as [|c0 cmds IH]; intros d Hin Habs;
    [contradiction|].
  simpl.
  pose proof (register_all_length_le cmds (dict_set (name c0) c0 d)) as Hle.
  rewrite dict_set_length in Hle.
  destruct (dict_contains (name c0) d) eqn:Hc0; [|lia].
  destruct Hin as [-> | Hin].
  - unfold dict_contains in Hc0. now rewrite Habs in Hc0.
  - assert (Hlen : List.length (dict_set (name c0) c0 d) = List.length d)
      by (rewrite dict_set_length; now rewrite Hc0).
    rewrite <- Hlen. apply IH; [assumption|].
    destruct (string_dec (name c0) (name c)) as [Heq|Hne].
    + unfold dict_contains in Hc0. rewrite Heq, Habs in Hc0. discriminate.
    + now rewrite dict_get_set_other.
Qed.

Lemma register_all_same_length cmds d :
  List.length (register_all cmds d) = List.length d ->
  dict_keys (register_all cmds d) = dict_keys d.
Proof.
  revert d. induction cmds as [|c cmds IH]; intros d Hlen; simpl in *;
    [reflexivity|].
  pose proof (register_all_length_le cmds (dict_set (name c) c d)) as Hle.
  rewrite dict_set_length in Hle.
  destruct (dict_contains (name c) d) eqn:Hc; [|lia].
  rewrite IH.
  - now apply dict_set_present.
  - rewrite Hlen, dict_set_length. now rewrite Hc.
Qed.

(** One step of the loop either leaves the mapping as it is or, through an
    entry point, registers commands; it never raises after registering. *)
Lemma reload_one_cases loader key st :
  commands (snd (reload_one loader key st)) = commands st \/
  exists cmds,
    fst (reload_one loader key st) = Ok tt /\
    commands (snd (reload_one loader key st)) =
      register_all cmds (commands st).
Proof.
  rewrite reload_one_run.
  destruct (dict_get key (commands st)) as [cmd|]; [|now left].
  cbv zeta.
  destruct (import_module loader (class_module cmd)) as [module|e];
    [|now left].
  destruct (reload loader module) as [module'|e]; [|now left].
  destruct (register_entry module') as [cmds|]; [|now left].
  right. now exists cmds.
Qed.

Lemma reload_loop_spec loader len :
  forall di_pos st,
    let out :=
      dict_iter (List.length (commands st)) di_pos len (reload_one loader) st
    in
    List.length (commands st) <= List.length (commands (snd out)) /\
    (List.length (commands st) < List.length (commands (snd out)) ->
     fst out = Raise size_changed) /\
    (List.length (commands (snd out)) = List.length (commands st) ->
     dict_keys (commands (snd out)) = dict_keys (commands st)).
Proof.
  induction len as [|len IH]; intros di_pos st; cbv zeta.
  - simpl. rewrite Nat.eqb_refl. simpl.
    destruct (nth_error (dict_keys (commands st)) di_pos); simpl;
      (split; [lia | split; [lia | reflexivity]]).
  - cbn [dict_iter]. rewrite Nat.eqb_refl. cbn [negb].
    destruct (nth_error (dict_keys (commands st)) di_pos) as [key|];
      [|simpl; split; [lia | split; [lia | reflexivity]]].
    unfold bind.
    destruct (reload_one_cases loader key st) as [Hsame | [cmds [Hok Hcmds]]].
    + destruct (reload_one loader key st) as [[[]|e] st1]; simpl in Hsame.
      * specialize (IH (S di_pos) st1). cbv zeta in IH.
        rewrite Hsame in IH. exact IH.
      * simpl. rewrite Hsame. split; [lia | split; [lia | reflexivity]].
    + destruct (reload_one loader key st) as [r st1]; simpl in Hok, Hcmds.
      subst r.
      pose proof (register_all_length_le cmds (commands st)) as Hle.
      destruct (Nat.eq_dec (List.length (commands st1))
                           (List.length (commands st))) as [Heq|Hne].
      * specialize (IH (S di_pos) st1). cbv zeta in IH.
        rewrite Heq in IH. destruct IH as (IH1 & IH2 & IH3).
        split; [exact IH1 | split; [exact IH2|]].
        intros Hfin. rewrite (IH3 Hfin).
        rewrite Hcmds. apply register_all_same_length. congruence.
      * destruct len as [|len']; cbn [dict_iter];
          (apply Nat.eqb_neq in Hne as Hne'; rewrite Hne'; cbn [negb fst snd];
           rewrite Hcmds in *;
           split; [lia | split; [reflexivity | intros Hfin; lia]]).
Qed.

Lemma reload_commands_run loader st :
  reload_commands loader st =
  dict_iter (List.length (commands st)) 0 (List.length (commands st))
    (reload_one loader) st.
Proof. reflexivity. Qed.

(** C10: [reload_commands] walks the live mapping.  When the loop stands at
    a command whose reloaded unit has an entry point that registers a name
    the mapping does not hold, the loop ends there with the iterator's
    "dictionary changed size during iteration" error, the new entries
    staying in.  For a whole run: the mapping never shrinks; if it grew, the
    run ended in that error; if the run returned, the keys are those it
    started with. *)
Theorem reload_growth_raises (loader : Loader) (st : State) :
  (forall di_pos len key cmd module module' cmds c,
     nth_error (dict_keys (commands st)) di_pos = Some key ->
     dict_get key (commands st) = Some cmd ->
     import_module loader (class_module cmd) = Ok module ->
     reload loader module = Ok module' ->
     register_entry module' = Some cmds ->
     In c cmds ->
     dict_get (name c) (commands st) = None ->
     exists st',
       dict_iter (List.length (commands st)) di_pos (S len)
         (reload_one loader) st = (Raise size_changed, st') /\
       commands st' = register_all cmds (commands st) /\
       List.length (commands st) < List.length (commands st')) /\
  (List.length (commands st) <
     List.length (commands (snd (reload_commands loader st))) ->
   fst (reload_commands loader st) = Raise size_changed) /\
  (fst (reload_commands loader st) = Ok tt ->
   dict_keys (commands (snd (reload_commands loader st))) =
     dict_keys (commands st)) /\
  List.length (commands st) <=
    List.length (commands (snd (reload_commands loader st))).
Proof.
  split.
  { intros di_pos len key cmd module module' cmds c
           Hkey Hget Himp Hrel Hentry Hin Habs.
    pose proof (register_all_grows cmds (commands st) c Hin Habs) as Hgrow.
    assert (Hne : Nat.eqb (List.length (register_all cmds (commands st)))
                          (List.length (commands st)) = false)
      by (apply Nat.eqb_neq; lia).
    eexists. split.
    - cbn [dict_iter]. rewrite Nat.eqb_refl. cbn [negb]. rewrite Hkey.
      unfold bind. rewrite reload_one_run, Hget. cbv zeta.
      rewrite Himp, Hrel, Hentry.
      destruct len; cbn [dict_iter commands]; rewrite Hne; reflexivity.
    - split; [reflexivity | exact Hgrow]. }
  rewrite reload_commands_run.
  destruct (reload_loop_spec loader (List.length (commands st)) 0 st)
    as (Hle & Hgrew & Hkeys).
  split; [exact Hgrew|]. split; [|exact Hle].
  intros Hok. apply Hkeys.
  destruct (Nat.eq_dec
              (List.length
                 (commands
                    (snd (dict_iter (List.length (commands st)) 0
                            (List.length (commands st))
                            (reload_one loader) st))))
              (List.length (commands st))) as [Heq|Hne]; [exact Heq|].
  rewrite Hgrew in Hok by lia. discriminate.
Qed.

Lemma reload_growth_raises_witness :
  fst (reload_commands plugin_loader grow_state) = Raise size_changed /\
  exists st',
    dict_iter 1 0 1 (reload_one plugin_loader) grow_state =
      (Raise size_changed, st') /\
    commands st' = [("mul", cmd_mul); ("div", cmd_div)].
Proof.
  destruct (reload_growth_raises plugin_loader grow_state)
    as (Hstep & Hrun & _).
  split.
  - apply Hrun. simpl. lia.
  - destruct (Hstep 0 0 "mul" cmd_mul grow_unit grow_unit [cmd_mul; cmd_div]
                cmd_div eq_refl eq_refl eq_refl eq_refl eq_refl
                (or_intror (or_introl eq_refl)) eq_refl)
      as (st' & Hiter & Hcmds & _).
    exists st'. split; [exact Hiter | exact Hcmds].
Defined.

(** C1 on a decorated command: after [import_commands "plugins.math"] has
    registered the command made by the decorator, [reload_commands] resolves
    and reloads ["ix.commands.registry"], the module of the class [Command],
    and nothing else: the unit the command came from is neither resolved
    nor reloaded and its [register] entry point is not called. *)
Theorem reload_misses_decorated_unit :
  import_commands plugin_loader "plugins.math" empty_state =
    (Ok tt, mkState [("add", cmd_add)] [EvResolve "plugins.math"]) /\
  register_entry math_unit = Some [cmd_add'] /\
  reload_commands plugin_loader (mkState [("add", cmd_add)] []) =
    (Ok tt,
     mkState [("add", cmd_add)]
             [EvResolve "ix.commands.registry";
              EvReload "ix.commands.registry"]).
Proof. repeat split. Qed.

(** Whatever the decorator is applied to, the command it attaches is an
    instance of [Command] itself, so the first thing its reload does is to
    resolve this module. *)
Lemma reload_one_decorated loader nm descr sig func cmd key st :
  command_attr (command nm descr sig func) = Some cmd ->
  dict_get key (commands st) = Some cmd ->
  class_module cmd = REGISTRY_MODULE /\
  exists later,
    trace (snd (reload_one loader key st)) =
      trace st ++ EvResolve REGISTRY_MODULE :: later.
Proof.
  intros [= <-] Hget. split; [reflexivity|].
  rewrite reload_one_run, Hget. cbv zeta.
  change (class_module (Command_new nm descr func sig))
    with REGISTRY_MODULE.
  destruct (import_module loader REGISTRY_MODULE) as [module|e];
    [|now exists []].
  destruct (reload loader module) as [module'|e];
    [|exists [EvReload (unit_name module)]; cbn [snd trace];
      now rewrite <- app_assoc].
  destruct (register_entry module') as [cmds|]; cbn [snd trace].
  - exists [EvReload (unit_name module); EvEntry (unit_name module')].
    now rewrite <- !app_assoc.
  - exists [EvReload (unit_name module)]. now rewrite <- app_assoc.
Qed.

(** A command whose class is defined in the plugin is reloaded through the
    plugin, and the entry point replaces it. *)
Lemma reload_reaches_subclass_unit :
  reload_commands plugin_loader
    (mkState [("add", Command_init "plugins.math" "add" "" f_xy None)] []) =
    (Ok tt,
     mkState [("add", cmd_add')]
             [EvResolve "plugins.math"; EvReload "plugins.math";
              EvEntry "plugins.math"]).
Proof. reflexivity. Qed.

Lemma registry_invariant_witness :
  registry_inv (commands (snd (reload_commands plugin_loader state_add))) /\
  registry_inv
    (commands (snd (for_tools tools_loader (Some ["unitA"; "unitB"])
                      state_add))) /\
  registry_inv (commands (snd (unregister "add" state_add))).
Proof.
  assert (Hinv : registry_inv (commands state_add))
    by (repeat constructor).
  destruct (registry_invariant plugin_loader state_add Hinv)
    as (_ & Hun & _ & Hrel & _).
  destruct (registry_invariant tools_loader state_add Hinv)
    as (_ & _ & _ & _ & Htools & _).
  split; [exact Hrel | split; [apply Htools | apply Hun]].
Defined.

(** * Properties beyond the specification *)

(** ** More on the dict *)

Section MoreDictFacts.

Context {V : Type}.
Implicit Types (d : dict V) (k : string) (v : V).

Lemma dict_contains_set k v d : dict_contains k (dict_set k v d) = true.
Proof. unfold dict_contains. now rewrite dict_get_set_same. Qed.

Lemma dict_del_absent k d : dict_get k d = None -> dict_del k d = d.
Proof.
  induction d as [|[k' v'] d IH]; simpl; [reflexivity|].
  destruct (String.eqb k k'); [discriminate|].
  intros H. now rewrite IH.
Qed.

Lemma dict_del_set k v d : dict_del k (dict_set k v d) = dict_del k d.
Proof.
  induction d as [|[k' v'] d IH]; simpl.
  - now rewrite String.eqb_refl.
  - destruct (String.eqb k k') eqn:E; simpl.
    + now rewrite String.eqb_refl.
    + now rewrite E, IH.
Qed.

Lemma dict_keys_set k v d :
  dict_keys (dict_set k v d) =
  if dict_contains k d then dict_keys d else dict_keys d ++ [k].
Proof.
  destruct (dict_contains k d) eqn:E.
  - now apply dict_set_present.
  - rewrite dict_set_absent by assumption.
    unfold dict_keys. now rewrite map_app.
Qed.

Lemma dict_keys_set_In k k' v d :
  In k (dict_keys d) -> In k (dict_keys (dict_set k' v d)).
Proof.
  intros H. rewrite dict_keys_set.
  destruct (dict_contains k' d); [assumption|].
  apply in_or_app. now left.
Qed.

Lemma dict_get_nth k v d i :
  dict_wf d -> nth_error d i = Some (k, v) -> dict_get k d = Some v.
Proof.
  unfold dict_wf. revert i.
  induction d as [|[k' v'] d IH]; intros [|i] Hwf Hnth; simpl in *;
    try discriminate.
  - injection Hnth as -> ->. now rewrite String.eqb_refl.
  - inversion Hwf as [|? ? Hnotin Hwf']; subst.
    destruct (String.eqb k k') eqn:E.
    + apply String.eqb_eq in E. subst k'. exfalso. apply Hnotin.
      apply nth_error_In in Hnth. now apply (in_map fst) in Hnth.
    + now apply IH with (i := i).
Qed.

(** Two dicts with the same key sequence and the same lookups are the same
    dict. *)
Lemma dict_ext d1 d2 :
  dict_wf d1 ->
  dict_keys d1 = dict_keys d2 ->
  (forall k, dict_get k d1 = dict_get k d2) ->
  d1 = d2.
Proof.
  unfold dict_wf. revert d2.
  induction d1 as [|[k1 v1] d1 IH]; intros [|[k2 v2] d2] Hwf Hkeys Hget;
    simpl in *; try discriminate; [reflexivity|].
  injection Hkeys as <- Hkeys.
  inversion Hwf as [|? ? Hnotin Hwf']; subst.
  pose proof (Hget k1) as Hk. rewrite String.eqb_refl in Hk.
  injection Hk as <-.
  f_equal. apply IH; try assumption.
  intros k. destruct (String.eqb k k1) eqn:E.
  - apply String.eqb_eq in E. subst k.
    assert (H1 : dict_get k1 d1 = None) by now apply dict_get_None.
    assert (H2 : dict_get k1 d2 = None)
      by (apply dict_get_None; now rewrite <- Hkeys).
    congruence.
  - specialize (Hget k). now rewrite E in Hget.
Qed.

End MoreDictFacts.

(** ** [Command.__init__] *)

(** X1: a non-empty [signature] argument is kept as given and shown as
    given; an empty one is taken for a missing one. *)
Theorem explicit_signature_kept (cls nm descr : string) (m : Method)
    (sig : string) :
  sig <> "" ->
  signature (Command_init cls nm descr m (Some sig)) = sig /\
  Command_str (Command_init cls nm descr m (Some sig)) =
    (nm ++ "(" ++ sig ++ ")")%string /\
  Command_init cls nm descr m (Some "") = Command_init cls nm descr m None.
Proof.
  intros Hsig. destruct sig as [|a sig]; [contradiction|].
  repeat split.
Qed.

Lemma explicit_signature_kept_witness :
  signature (Command_init "m" "add" "d" f_xy (Some "a, b")) = "a, b".
Proof.
  apply (@explicit_signature_kept "m" "add" "d" f_xy "a, b").
  discriminate.
Defined.

(** ** [register] and [unregister] *)


(** X3: [register c] followed by [unregister (name c)] always succeeds and
    leaves the registry as it was, less any entry it had under that name; if
    it had none, exactly as it was. *)
Theorem register_unregister_roundtrip (st : State) (c : Command) :
  (register c ;; unregister (name c)) st =
    (Ok tt, mkState (dict_del (name c) (commands st)) (trace st)) /\
  (dict_get (name c) (commands st) = None ->
   dict_del (name c) (commands st) = commands st).
Proof.
  split; [|apply dict_del_absent].
  unfold bind at 1. rewrite register_run.
  unfold unregister, bind, get_commands, put_commands.
  cbn [commands trace].
  now rewrite dict_contains_set, dict_del_set.
Qed.

(** X4: no operation of the registry ever makes a name appear twice in the
    mapping, whether it returns or raises. *)
Theorem unique_names_preserved (loader : Loader) (st : State) :
  dict_wf (commands st) ->
  (forall cmd, dict_wf (commands (snd (register cmd st)))) /\
  (forall nm, dict_wf (commands (snd (unregister nm st)))) /\
  (forall unit_nm,
     dict_wf (commands (snd (import_commands loader unit_nm st)))) /\
  dict_wf (commands (snd (reload_commands loader st))) /\
  (forall tools, dict_wf (commands (snd (for_tools loader tools st)))).
Proof.
  intros Hwf.
  assert (Hset : forall cmd d, dict_wf d -> dict_wf (dict_set (name cmd) cmd d))
    by (intros; now apply dict_set_wf).
  split; [|split; [|split; [|split]]].
  - intros cmd. now apply preserves_register.
  - intros nm. unfold unregister, bind, get_commands. cbv beta iota.
    destruct (dict_contains nm (commands st)); simpl; [|assumption].
    now apply dict_del_wf.
  - intros unit_nm. now apply preserves_import_commands.
  - now apply preserves_reload_commands.
  - intros tools. unfold for_tools, bind, CommandRegistry_init, put_commands.
    cbv beta iota.
    apply preserves_for_each.
    + intros nm. now apply preserves_import_commands.
    + constructor.
Qed.

Lemma unique_names_preserved_witness :
  dict_wf (commands (snd (reload_commands plugin_loader grow_state))) /\
  dict_wf (commands (snd (import_commands tools_loader "unitA" state_two))).
Proof.
  split.
  - apply (unique_names_preserved plugin_loader grow_state).
    repeat constructor. simpl. tauto.
  - apply (unique_names_preserved tools_loader state_two).
    repeat constructor; simpl; intuition discriminate.
Defined.

(** X5: a name that is registered stays registered through [register],
    [import_commands] and [reload_commands], whether they return or raise;
    only [unregister] takes a name out. *)
Theorem names_stay_registered (loader : Loader) (st : State) (k : string) :
  In k (dict_keys (commands st)) ->
  (forall cmd, In k (dict_keys (commands (snd (register cmd st))))) /\
  (forall unit_nm,
     In k (dict_keys (commands (snd (import_commands loader unit_nm st))))) /\
  In k (dict_keys (commands (snd (reload_commands loader st)))) /\
  (forall nm, nm <> k ->
     In k (dict_keys (commands (snd (unregister nm st))))).
Proof.
  intros Hin.
  assert (Hset : forall cmd d,
             In k (dict_keys d) -> In k (dict_keys (dict_set (name cmd) cmd d)))
    by (intros; now apply dict_keys_set_In).
  split; [|split; [|split]].
  - intros cmd.
    now apply (preserves_register (fun d => In k (dict_keys d)) Hset).
  - intros unit_nm.
    now apply (preserves_import_commands (fun d => In k (dict_keys d)) Hset).
  - now apply (preserves_reload_commands (fun d => In k (dict_keys d)) Hset).
  - intros nm Hne. unfold unregister, bind, get_commands. cbv beta iota.
    destruct (dict_contains nm (commands st)); simpl; [|assumption].
    destruct (In_dec string_dec k (dict_keys (dict_del nm (commands st))))
      as [H|H]; [assumption|].
    exfalso. apply dict_get_None in H.
    clear Hset. induction (commands st) as [|[k' v'] d IH]; simpl in *;
      [contradiction|].
    destruct (String.eqb nm k') eqn:E.
    + apply String.eqb_eq in E. subst k'.
      destruct Hin as [Heq|Hin]; [congruence|].
      apply dict_get_None in H. contradiction.
    + simpl in H. destruct (String.eqb k k') eqn:E'; [discriminate|].
      apply String.eqb_neq in E'.
      destruct Hin as [Heq|Hin]; [congruence|]. now apply IH.
Qed.

Lemma names_stay_registered_witness :
  In "mul" (dict_keys (commands (snd (reload_commands plugin_loader
                                        grow_state)))) /\
  In "add" (dict_keys (commands (snd (unregister "sub" state_two)))).
Proof.
  split.
  - apply (names_stay_registered plugin_loader grow_state "mul").
    simpl. tauto.
  - apply (names_stay_registered plugin_loader state_two "add").
    + simpl. tauto.
    + discriminate.
Defined.

(** ** More on [reload_commands] *)

(** X6: on an empty registry [reload_commands] returns at once: no unit is
    resolved or reloaded and the state is untouched. *)
Theorem reload_empty_noop (loader : Loader) (st : State) :
  commands st = [] ->
  reload_commands loader st = (Ok tt, st).
Proof.
  intros Hempty. rewrite reload_commands_run, Hempty.
  cbn [List.length dict_iter]. rewrite Hempty. reflexivity.
Qed.

Lemma reload_empty_noop_witness :
  reload_commands plugin_loader empty_state = (Ok tt, empty_state).
Proof. apply (reload_empty_noop plugin_loader empty_state). reflexivity. Defined.

(** X7: when the unit of the first command cannot be resolved, or cannot be
    reloaded, [reload_commands] ends with the loader's error right there:
    the mapping is as before and nothing is asked of the loader for the
    commands that follow. *)
Theorem reload_loader_failure (loader : Loader) (st : State) (key : string)
    (cmd : Command) (rest : dict Command) (e : exn) :
  commands st = (key, cmd) :: rest ->
  (import_module loader (class_module cmd) = Raise e ->
   reload_commands loader st =
     (Raise e,
      mkState (commands st) (trace st ++ [EvResolve (class_module cmd)]))) /\
  (forall module,
     import_module loader (class_module cmd) = Ok module ->
     reload loader module = Raise e ->
     reload_commands loader st =
       (Raise e,
        mkState (commands st)
                ((trace st ++ [EvResolve (class_module cmd)]) ++
                 [EvReload (unit_name module)]))).
Proof.
  intros Hcmds.
  assert (Hstep : reload_commands loader st =
                  (x <- reload_one loader key ;;
                   dict_iter (List.length (commands st)) 1
                     (List.length rest) (reload_one loader)) st).
  { rewrite reload_commands_run. rewrite Hcmds at 2.
    cbn [List.length dict_iter]. rewrite Nat.eqb_refl. cbn [negb].
    rewrite Hcmds at 1. reflexivity. }
  assert (Hget : dict_get key (commands st) = Some cmd)
    by (rewrite Hcmds; simpl; now rewrite String.eqb_refl).
  rewrite Hstep. unfold bind. rewrite reload_one_run, Hget. cbv zeta.
  split.
  - now intros ->.
  - intros module -> Hrel. now rewrite Hrel.
Qed.

Lemma reload_loader_failure_witness :
  reload_commands inert_loader state_two =
    (Raise (ImportError REGISTRY_MODULE),
     mkState (commands state_two) [EvResolve REGISTRY_MODULE]).
Proof.
  apply (@reload_loader_failure inert_loader state_two "sub" cmd_sub
           [("add", cmd_add)] (ImportError REGISTRY_MODULE) eq_refl).
  reflexivity.
Defined.

Lemma skipn_nth_cons {A} (l : list A) (n : nat) (x : A) :
  nth_error l n = Some x -> skipn n l = x :: skipn (S n) l.
Proof.
  revert n. induction l as [|y l IH]; intros [|n] H; simpl in *;
    try discriminate.
  - now injection H as ->.
  - now apply IH.
Qed.

Lemma reload_loop_quiet loader (d : dict Command) :
  dict_wf d ->
  (forall cmd, In cmd (dict_values d) ->
     exists module module',
       import_module loader (class_module cmd) = Ok module /\
       reload loader module = Ok module' /\
       register_entry module' = None) ->
  forall len di_pos t,
    di_pos + len = List.length d ->
    dict_iter (List.length d) di_pos len (reload_one loader) (mkState d t) =
    (Ok tt,
     mkState d (t ++ flat_map (reload_events loader)
                       (skipn di_pos (dict_values d)))).
Proof.
  intros Hwf Hquiet.
  induction len as [|len IH]; intros di_pos t Hlen.
  - assert (Hkeys : nth_error (dict_keys d) di_pos = None)
      by (apply nth_error_None; unfold dict_keys; rewrite length_map; lia).
    cbn [dict_iter commands]. rewrite Nat.eqb_refl, Hkeys. cbn [negb].
    rewrite skipn_all2
      by (unfold dict_values; rewrite length_map; lia).
    simpl. now rewrite app_nil_r.
  - destruct (nth_error d di_pos) as [[key cmd]|] eqn:Hnth;
      [|apply nth_error_None in Hnth; lia].
    assert (Hkey : nth_error (dict_keys d) di_pos = Some key)
      by (unfold dict_keys; now rewrite nth_error_map, Hnth).
    assert (Hval : nth_error (dict_values d) di_pos = Some cmd)
      by (unfold dict_values; now rewrite nth_error_map, Hnth).
    pose proof (dict_get_nth di_pos Hwf Hnth) as Hget.
    destruct (Hquiet cmd (nth_error_In _ _ Hval))
      as (module & module' & Himp & Hrel & Hentry).
    cbn [dict_iter commands]. rewrite Nat.eqb_refl, Hkey. cbn [negb].
    unfold bind. rewrite reload_one_run. cbn [commands trace].
    rewrite Hget. cbv zeta. rewrite Himp, Hrel, Hentry.
    rewrite IH by lia.
    rewrite (skipn_nth_cons _ _ Hval). cbn [flat_map].
    unfold reload_events at 2. rewrite Himp.
    now rewrite <- !app_assoc.
Qed.

(** X8: when no reloaded unit has a [register] entry point, [reload_commands]
    returns with the mapping as it was, having resolved and reloaded a unit
    once for every registered command, in the order of registration, also
    when several commands share a unit. *)
Theorem reload_without_entry_points (loader : Loader) (st : State) :
  dict_wf (commands st) ->
  (forall cmd, In cmd (dict_values (commands st)) ->
     exists module module',
       import_module loader (class_module cmd) = Ok module /\
       reload loader module = Ok module' /\
       register_entry module' = None) ->
  reload_commands loader st =
    (Ok tt,
     mkState (commands st)
             (trace st ++
              flat_map (reload_events loader) (dict_values (commands st)))).
Proof.
  intros Hwf Hquiet. rewrite reload_commands_run.
  destruct st as [d t]. cbn [commands trace] in *.
  now rewrite (reload_loop_quiet loader Hwf Hquiet).
Qed.

Lemma reload_without_entry_points_witness :
  reload_commands quiet_loader state_two =
    (Ok tt,
     mkState (commands state_two)
             [EvResolve REGISTRY_MODULE; EvReload REGISTRY_MODULE;
              EvResolve REGISTRY_MODULE; EvReload REGISTRY_MODULE]).
Proof.
  apply (reload_without_entry_points quiet_loader state_two).
  - repeat constructor; simpl; intuition discriminate.
  - intros cmd _. exists registry_unit, registry_unit. repeat split.
Defined.

Lemma register_all_present_keys cmds (d : dict Command) :
  (forall c, In c cmds -> In (name c) (dict_keys d)) ->
  dict_keys (register_all cmds d) = dict_keys d.
Proof.
  revert d. induction cmds as [|c cmds IH]; intros d Hall; simpl;
    [reflexivity|].
  assert (Hc : dict_contains (name c) d = true).
  { unfold dict_contains.
    destruct (dict_get (name c) d) eqn:E; [reflexivity|].
    apply dict_get_None in E. exfalso. apply E, Hall. now left. }
  rewrite IH.
  - now apply dict_set_present.
  - intros c' Hc'. rewrite dict_set_present by assumption.
    apply Hall. now right.
Qed.

Lemma dict_set_values_Forall (Q : Command -> Prop) k v (d : dict Command) :
  Forall Q (dict_values d) -> Q v -> Forall Q (dict_values (dict_set k v d)).
Proof.
  unfold dict_values.
  induction d as [|[k' v'] d IH]; simpl; intros Hd Hv.
  - now constructor.
  - inversion Hd; subst.
    destruct (String.eqb k k'); simpl; constructor; auto.
Qed.

Lemma register_all_values_Forall (Q : Command -> Prop) cmds
    (d : dict Command) :
  Forall Q (dict_values d) -> Forall Q cmds ->
  Forall Q (dict_values (register_all cmds d)).
Proof.
  revert d. induction cmds as [|c cmds IH]; intros d Hd Hcmds; simpl;
    [assumption|].
  inversion Hcmds; subst.
  apply IH; [|assumption]. now apply dict_set_values_Forall.
Qed.

Lemma reload_loop_safe loader (ks : list string) (Q : Command -> Prop) :
  (forall cmd, Q cmd ->
     exists module module',
       import_module loader (class_module cmd) = Ok module /\
       reload loader module = Ok module' /\
       forall cmds, register_entry module' = Some cmds ->
                    Forall (fun c => In (name c) ks /\ Q c) cmds) ->
  forall len di_pos st,
    dict_keys (commands st) = ks ->
    Forall Q (dict_values (commands st)) ->
    di_pos + len = List.length ks ->
    let out := dict_iter (List.length ks) di_pos len (reload_one loader) st in
    fst out = Ok tt /\
    dict_keys (commands (snd out)) = ks /\
    Forall Q (dict_values (commands (snd out))).
Proof.
  intros Hsafe.
  induction len as [|len IH]; intros di_pos st Hks HQ Hlen; cbv zeta.
  - assert (Hsize : List.length (commands st) = List.length ks)
      by (rewrite <- Hks; unfold dict_keys; now rewrite length_map).
    assert (Hkeys : nth_error (dict_keys (commands st)) di_pos = None)
      by (apply nth_error_None; rewrite Hks; lia).
    cbn [dict_iter]. rewrite Hsize, Nat.eqb_refl, Hkeys. cbn [negb fst snd].
    auto.
  - assert (Hsize : List.length (commands st) = List.length ks)
      by (rewrite <- Hks; unfold dict_keys; now rewrite length_map).
    destruct (nth_error (dict_keys (commands st)) di_pos) as [key|] eqn:Hkey;
      [|apply nth_error_None in Hkey; rewrite Hks in Hkey; lia].
    destruct (dict_get key (commands st)) as [cmd|] eqn:Hget;
      [|apply dict_get_None in Hget; exfalso; apply Hget;
        now apply nth_error_In in Hkey].
    assert (Hcmd : Q cmd).
    { apply dict_get_In in Hget. apply (in_map snd) in Hget.
      rewrite Forall_forall in HQ. now apply HQ. }
    destruct (Hsafe cmd Hcmd) as (module & module' & Himp & Hrel & Hentry).
    cbn [dict_iter]. rewrite Hsize, Nat.eqb_refl, Hkey. cbn [negb].
    unfold bind. rewrite reload_one_run, Hget. cbv zeta.
    rewrite Himp, Hrel.
    destruct (register_entry module') as [cmds|].
    + specialize (Hentry cmds eq_refl).
      apply IH; cbn [commands]; try lia.
      * rewrite <- Hks. apply register_all_present_keys.
        intros c Hc. rewrite Forall_forall in Hentry.
        rewrite Hks. now apply Hentry.
      * apply register_all_values_Forall; [assumption|].
        eapply Forall_impl; [|exact Hentry]. now intros c [_ Hc].
    + apply IH; cbn [commands]; try assumption; lia.
Qed.

(** X9: reloading is safe when entry points only re-register names that are
    already there.  Given a class of commands [Q] that holds the registered
    ones, whose units all resolve and reload, and whose entry points register
    only commands of the class under names the registry holds,
    [reload_commands] returns, with the same names in the same order and
    every command still in the class. *)
Theorem reload_safe (loader : Loader) (st : State) (Q : Command -> Prop) :
  Forall Q (dict_values (commands st)) ->
  (forall cmd, Q cmd ->
     exists module module',
       import_module loader (class_module cmd) = Ok module /\
       reload loader module = Ok module' /\
       forall cmds, register_entry module' = Some cmds ->
                    Forall (fun c => In (name c) (dict_keys (commands st)) /\
                                     Q c) cmds) ->
  fst (reload_commands loader st) = Ok tt /\
  dict_keys (commands (snd (reload_commands loader st))) =
    dict_keys (commands st) /\
  Forall Q (dict_values (commands (snd (reload_commands loader st)))).
Proof.
  intros HQ Hsafe. rewrite reload_commands_run.
  assert (Hsize : List.length (commands st) =
                  List.length (dict_keys (commands st)))
    by (unfold dict_keys; now rewrite length_map).
  rewrite Hsize.
  apply (reload_loop_safe loader Hsafe); auto.
Qed.

Lemma reload_safe_witness :
  fst (reload_commands plugin_loader state_add_sub) = Ok tt /\
  dict_keys (commands (snd (reload_commands plugin_loader state_add_sub))) =
    ["add"].
Proof.
  assert (H : Forall known_class (dict_values (commands state_add_sub)))
    by (repeat constructor).
  destruct (@reload_safe plugin_loader state_add_sub known_class H)
    as (Hok & Hkeys & _).
  - intros cmd [Hc|Hc]; rewrite Hc.
    + exists math_unit, math_unit. repeat split.
      intros cmds [= <-].
      constructor; [split; [simpl; tauto | right; reflexivity] | constructor].
    + exists registry_unit, registry_unit. repeat split.
      intros cmds [=].
  - split; [exact Hok | exact Hkeys].
Defined.

(** ** More on [import_commands] *)

Lemma discover_member_not_a_command attr :
  not_a_command attr -> discover_member attr = Ok None.
Proof.
  intros [Hmark Hclass]. unfold discover_member.
  destruct (ix_command attr) as [[|[|]| |]|]; try congruence;
    destruct (class_kind attr) as [| |instantiate|]; try reflexivity;
    now destruct (Hclass instantiate).
Qed.

Lemma discover_nothing attrs :
  Forall not_a_command attrs -> discover attrs = ([], None).
Proof.
  induction 1 as [|attr attrs Hattr _ IH]; simpl; [reflexivity|].
  now rewrite discover_member_not_a_command.
Qed.

Lemma attrs_of_Forall (Q : Attr -> Prop) module names :
  Forall Q (dict_values (members module)) -> Forall Q (attrs_of module names).
Proof.
  intros HQ. rewrite Forall_forall in HQ.
  induction names as [|nm names IH]; simpl; [constructor|].
  destruct (dict_get nm (members module)) as [attr|] eqn:Hget; simpl;
    [|assumption].
  constructor; [|assumption].
  apply HQ. apply dict_get_In in Hget. now apply (in_map snd) in Hget.
Qed.

(** X10: [import_commands] leaves the mapping as it is when the unit does
    not resolve, the loader's error being the result, and when the unit
    resolves but none of its members carries the marker set to [True] or is
    a proper subclass of [Command]: the class [Command] itself, a marker of
    another value and ordinary members are passed over. *)
Theorem import_without_commands (loader : Loader) (st : State)
    (unit_nm : string) :
  (forall e,
     import_module loader unit_nm = Raise e ->
     import_commands loader unit_nm st =
       (Raise e, mkState (commands st) (trace st ++ [EvResolve unit_nm]))) /\
  (forall module,
     import_module loader unit_nm = Ok module ->
     Forall not_a_command (dict_values (members module)) ->
     import_commands loader unit_nm st =
       (Ok tt, mkState (commands st) (trace st ++ [EvResolve unit_nm]))).
Proof.
  split.
  - intros e He. rewrite import_commands_run. unfold import_outcome.
    now rewrite He.
  - intros module Hmod Hnone. rewrite import_commands_run.
    unfold import_outcome, discoverable. rewrite Hmod.
    now rewrite (discover_nothing (attrs_of_Forall _ _ Hnone)).
Qed.

Lemma import_without_commands_witness :
  import_commands inert_loader "plugins.inert" state_add =
    (Ok tt, mkState (commands state_add) [EvResolve "plugins.inert"]) /\
  import_commands inert_loader "plugins.absent" state_add =
    (Raise (ImportError "plugins.absent"),
     mkState (commands state_add) [EvResolve "plugins.absent"]).
Proof.
  split.
  - apply (proj2 (import_without_commands inert_loader state_add
                    "plugins.inert") inert_unit eq_refl).
    repeat constructor; simpl; discriminate.
  - apply (proj1 (import_without_commands inert_loader state_add
                    "plugins.absent") (ImportError "plugins.absent") eq_refl).
Defined.

Lemma register_all_wf cmds (d : dict Command) :
  dict_wf d -> dict_wf (register_all cmds d).
Proof.
  revert d. induction cmds as [|c cmds IH]; intros d Hwf; simpl;
    [assumption|].
  apply IH. now apply dict_set_wf.
Qed.

Lemma last_named_In nm cmds c :
  last_named nm cmds = Some c -> In c cmds /\ name c = nm.
Proof.
  unfold last_named. intros H. apply find_some in H. destruct H as [Hin Heq].
  apply in_rev in Hin. apply String.eqb_eq in Heq. auto.
Qed.

Lemma last_named_Some cmds c :
  In c cmds -> exists c', last_named (name c) cmds = Some c'.
Proof.
  intros Hin. unfold last_named.
  destruct (find (fun cmd => String.eqb (name c) (name cmd)) (rev cmds))
    as [c'|] eqn:E; [now exists c'|].
  apply in_rev in Hin.
  pose proof (find_none _ _ E c Hin) as H. simpl in H.
  now rewrite String.eqb_refl in H.
Qed.

Lemma register_all_idem cmds (d : dict Command) :
  dict_wf d -> register_all cmds (register_all cmds d) = register_all cmds d.
Proof.
  intros Hwf. apply dict_ext.
  - now apply register_all_wf, register_all_wf.
  - apply register_all_present_keys. intros c Hc.
    destruct (In_dec string_dec (name c) (dict_keys (register_all cmds d)))
      as [H|H]; [assumption|].
    apply dict_get_None in H. rewrite dict_get_register_all in H.
    destruct (last_named_Some cmds c Hc) as [c' Hc'].
    now rewrite Hc' in H.
  - intros k. rewrite !dict_get_register_all.
    now destruct (last_named k cmds).
Qed.

(** X11: importing a unit a second time changes nothing in the mapping: the
    second import returns and the registry holds what it held after the
    first. *)
Theorem import_twice (loader : Loader) (st : State) (unit_nm : string) :
  dict_wf (commands st) ->
  snd (import_outcome loader unit_nm) = None ->
  fst ((import_commands loader unit_nm ;; import_commands loader unit_nm) st)
    = Ok tt /\
  commands
    (snd ((import_commands loader unit_nm ;; import_commands loader unit_nm)
            st)) =
  commands (snd (import_commands loader unit_nm st)).
Proof.
  intros Hwf Hok. unfold bind.
  rewrite import_commands_run, Hok. cbn [result_of].
  rewrite import_commands_run, Hok. cbn [result_of fst snd commands].
  split; [reflexivity|]. now apply register_all_idem.
Qed.

Lemma import_twice_witness :
  commands
    (snd ((import_commands tools_loader "unitA" ;;
           import_commands tools_loader "unitA") state_two)) =
  commands (snd (import_commands tools_loader "unitA" state_two)).
Proof.
  apply (import_twice tools_loader state_two "unitA").
  - repeat constructor; simpl; intuition discriminate.
  - reflexivity.
Defined.

(** X12: after a unit has been imported, calling a name the unit offers,
    with keywords that do not bear the name of a parameter of [call] itself,
    runs the method of the command the unit offers last under that name,
    whatever the registry held under that name before. *)
Theorem import_then_call (loader : Loader) (st : State)
    (unit_nm nm : string) (c : Command) (kw : kwargs) :
  snd (import_outcome loader unit_nm) = None ->
  last_named nm (fst (import_outcome loader unit_nm)) = Some c ->
  colliding_keyword call_parameters kw = None ->
  (import_commands loader unit_nm ;; call nm kw) st =
    (run (method c) kw,
     mkState (register_all (fst (import_outcome loader unit_nm)) (commands st))
             ((trace st ++ [EvResolve unit_nm]) ++ [EvInvoke nm kw])).
Proof.
  intros Hok Hlast Hkw. unfold bind.
  rewrite import_commands_run, Hok. cbn [result_of].
  rewrite call_run, Hkw. cbn [commands trace].
  rewrite dict_get_register_all, Hlast.
  destruct (last_named_In _ _ Hlast) as [_ ->]. reflexivity.
Qed.

Lemma import_then_call_witness :
  fst ((import_commands tools_loader "unitB" ;;
        call "add" [("x", VInt 7%Z); ("y", VInt 1%Z)])
         state_add) = Ok (VInt 7%Z).
Proof.
  exact (f_equal fst
           (@import_then_call tools_loader state_add "unitB" "add" cmd_add'
              [("x", VInt 7%Z); ("y", VInt 1%Z)] eq_refl eq_refl eq_refl)).
Defined.

(** X13: a function tagged by the [command] decorator, imported from the
    unit that holds it, is registered under the name given to the decorator
    (not under the name it has in the unit), with the signature derived by
    [Command]; calling the wrapper itself runs the function, and so does
    calling that name through the registry with keywords that do not bear
    the name of a parameter of [call] itself. *)
Theorem decorated_function_roundtrip (loader : Loader) (st : State)
    (unit_nm attr_nm nm descr : string) (sig : option string)
    (func : Method) (module : Unit) (kw : kwargs) :
  import_module loader unit_nm = Ok module ->
  members module = [(attr_nm, command nm descr sig func)] ->
  let cmd := Command_new nm descr func sig in
  let registered :=
    mkState (dict_set nm cmd (commands st)) (trace st ++ [EvResolve unit_nm])
  in
  attr_call (command nm descr sig func) = Some (run func) /\
  import_commands loader unit_nm st = (Ok tt, registered) /\
  get nm registered = (Ok cmd, registered) /\
  (colliding_keyword call_parameters kw = None ->
   fst (call nm kw registered) = run func kw).
Proof.
  intros Hmod Hmembers cmd registered.
  split; [reflexivity|].
  split; [|split].
  - rewrite import_commands_run.
    unfold import_outcome, discoverable, dir, attrs_of.
    rewrite Hmod, Hmembers. cbn [dict_keys map fst sort_by fold_right
                                  insert_by flat_map dict_get].
    rewrite String.eqb_refl. reflexivity.
  - rewrite get_run. subst registered. cbn [commands].
    now rewrite dict_get_set_same.
  - intros Hkw. rewrite call_run, Hkw. subst registered. cbn [commands].
    now rewrite dict_get_set_same.
Qed.

Lemma decorated_function_roundtrip_witness :
  import_commands tools_loader "unitB" empty_state =
    (Ok tt, mkState [("add", cmd_add')] [EvResolve "unitB"]) /\
  fst (call "add" [("x", VInt 7%Z); ("y", VInt 1%Z)]
         (mkState [("add", cmd_add')] [EvResolve "unitB"])) = Ok (VInt 7%Z).
Proof.
  destruct (@decorated_function_roundtrip tools_loader empty_state
              "unitB" "add" "add" "adds numbers, again"
              (Some "x: int, y: int") f_xy unitB
              [("x", VInt 7%Z); ("y", VInt 1%Z)] eq_refl eq_refl)
    as (_ & Himport & _ & Hcall).
  split; [exact Himport | exact (Hcall eq_refl)].
Defined.

Lemma ltb_asym (a b : string) :
  String.ltb a b = true -> String.ltb b a = false /\ a <> b.
Proof.
  unfold String.ltb. intros H. split.
  - rewrite (String.compare_antisym b a).
    destruct (String.compare a b); simpl; congruence.
  - intros ->.
    assert (Hrefl : String.compare b b = Eq)
      by now apply String_as_OT.cmp_eq.
    now rewrite Hrefl in H.
Qed.

(** X14: members are visited in the order of their names in the unit, not
    in the order of their definition: of two tagged functions that give the
    same command name, the one bound to the greater attribute name is the
    one left in the registry. *)
Theorem later_attribute_wins (loader : Loader) (st : State)
    (unit_nm a1 a2 nm d1 d2 : string) (s1 s2 : option string)
    (f1 f2 : Method) (module : Unit) :
  import_module loader unit_nm = Ok module ->
  String.ltb a1 a2 = true ->
  members module = [(a1, command nm d1 s1 f1); (a2, command nm d2 s2 f2)] \/
  members module = [(a2, command nm d2 s2 f2); (a1, command nm d1 s1 f1)] ->
  import_commands loader unit_nm st =
    (Ok tt,
     mkState (dict_set nm (Command_new nm d2 f2 s2) (commands st))
             (trace st ++ [EvResolve unit_nm])).
Proof.
  intros Hmod Hlt Hmembers.
  destruct (ltb_asym _ _ Hlt) as [Hgt Hne].
  assert (E12 : String.eqb a1 a2 = false) by now apply String.eqb_neq.
  assert (E21 : String.eqb a2 a1 = false)
    by (apply String.eqb_neq; congruence).
  rewrite import_commands_run.
  unfold import_outcome, discoverable, dir, attrs_of.
  rewrite Hmod.
  destruct Hmembers as [-> | ->];
    cbn [dict_keys map fst sort_by fold_right insert_by];
    rewrite ?Hlt, ?Hgt;
    cbn [insert_by flat_map dict_get];
    rewrite ?String.eqb_refl, ?E12, ?E21;
    cbn [app discover discover_member command ix_command command_attr
         fst snd result_of register_all fold_left name Command_new
         Command_init];
    now rewrite dict_set_set.
Qed.

Lemma later_attribute_wins_witness :
  import_commands twice_loader "plugins.twice" empty_state =
    (Ok tt, mkState [("add", cmd_add')] [EvResolve "plugins.twice"]).
Proof.
  apply (@later_attribute_wins twice_loader empty_state "plugins.twice"
           "first" "second" "add" "adds numbers" "adds numbers, again"
           None (Some "x: int, y: int") f_xy f_xy twice_unit
           eq_refl eq_refl).
  now right.
Defined.

(** ** More on [command_prompt] *)

Lemma sorted_perm_unique {A} (key : A -> string) (l1 l2 : list A) :
  StronglySorted (key_le key) l1 ->
  StronglySorted (key_le key) l2 ->
  Permutation l1 l2 ->
  NoDup (map key l1) ->
  l1 = l2.
Proof.
  revert l2. induction l1 as [|x l1 IH]; intros l2 Hs1 Hs2 Hperm Hnd.
  - apply Permutation_nil in Hperm. now subst.
  - destruct l2 as [|y l2];
      [apply Permutation_sym, Permutation_nil in Hperm; discriminate|].
    inversion Hs1 as [|? ? Hs1' Hall1]; subst.
    inversion Hs2 as [|? ? Hs2' Hall2]; subst.
    inversion Hnd as [|? ? Hnotin Hnd']; subst.
    rewrite Forall_forall in Hall1, Hall2.
    assert (Hxy : x = y).
    { assert (Hx : In x (y :: l2))
        by (apply (Permutation_in _ Hperm); now left).
      assert (Hy : In y (x :: l1))
        by (apply (Permutation_in _ (Permutation_sym Hperm)); now left).
      destruct Hx as [Hx|Hx]; [congruence|].
      destruct Hy as [Hy|Hy]; [congruence|].
      exfalso. apply Hnotin.
      assert (Hkey : key x = key y)
        by (apply String.leb_antisym; [now apply Hall1 | now apply Hall2]).
      rewrite Hkey. now apply in_map. }
    subst y. f_equal.
    apply IH; try assumption.
    now apply Permutation_cons_inv in Hperm.
Qed.

Lemma registry_inv_names (d : dict Command) :
  registry_inv d -> map name (dict_values d) = dict_keys d.
Proof.
  unfold registry_inv, dict_values, dict_keys.
  induction 1 as [|[k v] d Hk _ IH]; simpl in *; [reflexivity|].
  now rewrite IH, Hk.
Qed.

(** X15: the listing does not depend on the order in which the commands
    were registered: two registries that hold the same entries give the same
    [command_prompt]. *)
Theorem command_prompt_order_independent (st1 st2 : State) :
  dict_wf (commands st1) ->
  registry_inv (commands st1) ->
  Permutation (commands st1) (commands st2) ->
  fst (command_prompt st1) = fst (command_prompt st2).
Proof.
  intros Hwf Hinv Hperm.
  unfold command_prompt, bind, get_commands, ret. cbv beta iota zeta.
  cbn [fst].
  assert (Hvals : Permutation (dict_values (commands st1))
                              (dict_values (commands st2)))
    by (unfold dict_values; now apply Permutation_map).
  assert (Hsorted : sort_by name (dict_values (commands st1)) =
                    sort_by name (dict_values (commands st2))).
  { apply (sorted_perm_unique (key := name)).
    - apply sort_by_sorted.
    - apply sort_by_sorted.
    - rewrite (sort_by_perm name (dict_values (commands st1))).
      rewrite Hvals. symmetry. apply sort_by_perm.
    - apply Permutation_NoDup with (l := map name (dict_values (commands st1))).
      + apply Permutation_map, Permutation_sym, sort_by_perm.
      + now rewrite registry_inv_names. }
  now rewrite Hsorted.
Qed.

Lemma command_prompt_order_independent_witness :
  fst (command_prompt state_two) = fst (command_prompt state_two_swapped).
Proof.
  apply (command_prompt_order_independent state_two state_two_swapped).
  - repeat constructor; simpl; intuition discriminate.
  - repeat constructor.
  - apply perm_swap.
Defined.

(** ** Reloading a command in place *)

(** X16: in a registry that holds one command, whose unit resolves and
    reloads and has an entry point that registers commands under that same
    name only, [reload_commands] calls the entry point once and returns; the
    name is then bound to the command the entry point registered last. *)
Theorem reload_updates_in_place (loader : Loader) (st : State)
    (key : string) (cmd : Command) (module module' : Unit)
    (cmds : list Command) :
  commands st = [(key, cmd)] ->
  import_module loader (class_module cmd) = Ok module ->
  reload loader module = Ok module' ->
  register_entry module' = Some cmds ->
  Forall (fun c => name c = key) cmds ->
  let after :=
    mkState (register_all cmds (commands st))
            (trace st ++ [EvResolve (class_module cmd);
                          EvReload (unit_name module);
                          EvEntry (unit_name module')])
  in
  reload_commands loader st = (Ok tt, after) /\
  dict_keys (commands after) = [key] /\
  forall c, last_named key cmds = Some c -> get key after = (Ok c, after).
Proof.
  intros Hcmds Himp Hrel Hentry Hnames after.
  destruct st as [d t]. cbn [commands trace] in *. subst d.
  assert (Hkeys : dict_keys (register_all cmds [(key, cmd)]) = [key]).
  { rewrite register_all_present_keys; [reflexivity|].
    intros c Hc. rewrite Forall_forall in Hnames.
    rewrite (Hnames c Hc). now left. }
  assert (Hlen : List.length (register_all cmds [(key, cmd)]) = 1).
  { apply (f_equal (@List.length _)) in Hkeys.
    unfold dict_keys in Hkeys. now rewrite length_map in Hkeys. }
  split; [|split].
  - rewrite reload_commands_run.
    cbn [commands List.length dict_iter Nat.eqb negb dict_keys map fst
         nth_error].
    unfold bind. rewrite reload_one_run.
    cbn [commands trace dict_get]. rewrite String.eqb_refl. cbv zeta.
    rewrite Himp, Hrel, Hentry.
    cbn [dict_iter commands]. rewrite Hlen, Hkeys.
    cbn [Nat.eqb negb nth_error]. subst after.
    now rewrite <- !app_assoc.
  - exact Hkeys.
  - intros c Hc. rewrite get_run. subst after. cbn [commands].
    now rewrite dict_get_register_all, Hc.
Qed.

Lemma reload_updates_in_place_witness :
  reload_commands plugin_loader state_add_sub =
    (Ok tt,
     mkState [("add", cmd_add')]
             [EvResolve "plugins.math"; EvReload "plugins.math";
              EvEntry "plugins.math"]).
Proof.
  apply (@reload_updates_in_place plugin_loader state_add_sub "add"
           cmd_add_sub math_unit math_unit [cmd_add']
           eq_refl eq_refl eq_refl eq_refl).
  repeat constructor.
Defined.
